(** * Robust-Data-Processor: ingest API and redaction worker

    A shallow embedding of [src/api/handler.py] and [src/worker/handler.py].

    Text is a sequence of characters with code points below 256 ([ascii]);
    the character classes of Python's [re] module ([\d], [\s], [\w]) are the
    Unicode ones restricted to that range.  Library routines the handlers
    call but do not define ([json.loads], [json.dumps], [int], [uuid.uuid4],
    [datetime.utcnow], the SQS and DynamoDB clients) are parameters of the
    sections that use them. *)

From Stdlib Require Import Ascii String NArith ZArith Bool Lia.
From Stdlib Require Import Floats.SpecFloat.
From stdpp Require Import gmap strings list.

Local Open Scope string_scope.
Local Open Scope list_scope.

(** ** Characters and the classes of [re] *)

Abbreviation text := (list ascii).

Definition code (c : ascii) : N := N_of_ascii c.

Definition in_range (lo hi : N) (c : ascii) : bool :=
  ((lo <=? code c) && (code c <=? hi))%N.

(** [\d] on a [str] pattern: Unicode category Nd, below 256 only 0-9. *)
Definition is_digit (c : ascii) : bool := in_range 48 57 c.

(** [\s] on a [str] pattern: [str.isspace], below 256 the characters
    09-0D, 1C-1F, 20, 85 and A0. *)
Definition is_space (c : ascii) : bool :=
  in_range 9 13 c || in_range 28 32 c || (code c =? 133)%N || (code c =? 160)%N.

(** [\w] on a [str] pattern: [str.isalnum] or the underscore. *)
Definition is_word (c : ascii) : bool :=
  in_range 48 57 c || in_range 65 90 c || (code c =? 95)%N || in_range 97 122 c
  || (code c =? 170)%N || in_range 178 179 c || (code c =? 181)%N
  || in_range 185 186 c || in_range 188 190 c
  || in_range 192 214 c || in_range 216 246 c || in_range 248 255 c.

Definition is_word_opt (o : option ascii) : bool :=
  match o with Some c => is_word c | None => false end.

(** [\b]: between a [\w] and a [\W] character, or between [\w] and either
    end of the string. *)
Definition at_boundary (prev next : option ascii) : bool :=
  xorb (is_word_opt prev) (is_word_opt next).

(** ** The fragment of regular expressions the redactor uses *)

#[warnings="-register-all"]
Inductive cclass : Type :=
| CDigit                      (* \d *)
| CSpace                      (* \s *)
| CChar (c : ascii)           (* a literal, possibly escaped: \( *)
| CSet (ks : list cclass).    (* [...] *)

Fixpoint accepts (k : cclass) (x : ascii) : bool :=
  match k with
  | CDigit => is_digit x
  | CSpace => is_space x
  | CChar c => Ascii.eqb c x
  | CSet ks => existsb (fun k' => accepts k' x) ks
  end.

Inductive atom : Type :=
| One (k : cclass)            (* one character of the class *)
| Opt (k : cclass)            (* k? , greedy *)
| WordB.                      (* \b *)

Abbreviation regex := (list atom).

(** [k{n}] *)
Definition times (n : nat) (k : cclass) : regex := repeat (One k) n.

(** The backtracking matcher anchored at the current position: the number
    of characters of the first match in priority order.  [prev] is the
    character before the position in the whole subject string. *)
Fixpoint match_here (r : regex) (prev : option ascii) (s : text) : option nat :=
  match r with
  | [] => Some 0
  | One k :: r' =>
      match s with
      | x :: s' => if accepts k x then S <$> match_here r' (Some x) s' else None
      | [] => None
      end
  | Opt k :: r' =>
      match
        match s with
        | x :: s' => if accepts k x then S <$> match_here r' (Some x) s' else None
        | [] => None
        end
      with
      | Some n => Some n
      | None => match_here r' prev s
      end
  | WordB :: r' =>
      if at_boundary prev (head s) then match_here r' prev s else None
  end.

(** [re.sub(pattern, repl, string)] with a literal replacement: scan left to
    right, replace every leftmost non-overlapping match, copy the rest.
    [skip] counts the characters of the current match still to be consumed.
    An empty match inserts the replacement and copies the character. *)
Fixpoint sub_from (r : regex) (repl : text) (prev : option ascii) (skip : nat)
    (s : text) : text :=
  match s with
  | [] =>
      match skip, match_here r prev [] with
      | 0, Some _ => repl
      | _, _ => []
      end
  | c :: s' =>
      match skip with
      | S k => sub_from r repl (Some c) k s'
      | 0 =>
          match match_here r prev s with
          | Some (S n) => repl ++ sub_from r repl (Some c) n s'
          | Some 0 => repl ++ c :: sub_from r repl (Some c) 0 s'
          | None => c :: sub_from r repl (Some c) 0 s'
          end
      end
  end.

Definition re_sub (r : regex) (repl : text) (s : text) : text :=
  sub_from r repl None 0 s.

(** ** [redact_phone_numbers] (worker/handler.py) *)

Definition dash_dot : cclass := CSet [CChar "-"; CChar "."].
Definition dash_dot_space : cclass := CSet [CChar "-"; CChar "."; CSpace].

(** [\(\d{3}\)\s?\d{3}[-.]?\d{4}] *)
Definition pat_paren : regex :=
  [One (CChar "(")] ++ times 3 CDigit ++ [One (CChar ")"); Opt CSpace]
  ++ times 3 CDigit ++ [Opt dash_dot] ++ times 4 CDigit.

(** [\b\d{3}[-.\s]\d{3}[-.\s]\d{4}\b] *)
Definition pat_ten : regex :=
  [WordB] ++ times 3 CDigit ++ [One dash_dot_space] ++ times 3 CDigit
  ++ [One dash_dot_space] ++ times 4 CDigit ++ [WordB].

(** [\b\d{3}[-.]?\d{4}\b] *)
Definition pat_seven : regex :=
  [WordB] ++ times 3 CDigit ++ [Opt dash_dot] ++ times 4 CDigit ++ [WordB].

Definition patterns : list regex := [pat_paren; pat_ten; pat_seven].

Definition REDACTED : text := list_ascii_of_string "[REDACTED]".

Definition redact_text (t : text) : text :=
  fold_left (fun redacted pattern => re_sub pattern REDACTED redacted) patterns t.

Definition redact_phone_numbers (s : string) : string :=
  string_of_list_ascii (redact_text (list_ascii_of_string s)).

(** ** [re.search]: is there a match at some position *)

Fixpoint has_match (r : regex) (prev : option ascii) (s : text) : bool :=
  match match_here r prev s with
  | Some _ => true
  | None =>
      match s with
      | [] => false
      | c :: s' => has_match r (Some c) s'
      end
  end.

(** The character before the position reached after reading [b]. *)
Definition ctx_after (prev : option ascii) (b : text) : option ascii :=
  fold_left (fun _ c => Some c) b prev.

(** The characters an expression can consume. *)
Definition consumable (r : regex) (x : ascii) : bool :=
  existsb (fun a => match a with One k | Opt k => accepts k x | WordB => false end) r.

(** Every optional class is followed by a mandatory class disjoint from it,
    so the choice at an optional atom is decided by the next character. *)
Fixpoint det (r : regex) : Prop :=
  match r with
  | [] => True
  | Opt k :: r' =>
      match r' with
      | One k' :: _ => forall x, accepts k x = true -> accepts k' x = false
      | _ => False
      end /\ det r'
  | _ :: r' => det r'
  end.

(** ** Python values *)

(** What [json.loads] produces.  A [dict] is a finite map; Python's [None]
    is [JNull]. *)
#[warnings="-register-all"]
Inductive json : Type :=
| JNull
| JBool (b : bool)
| JInt (z : Z)
| JFloat (f : spec_float)
| JStr (s : string)
| JArr (l : list json)
| JObj (d : gmap string json).

(** Truth value of an object in a condition ([not x] is its negation). *)
Definition truthy (v : json) : bool :=
  match v with
  | JNull => false
  | JBool b => b
  | JInt z => negb (z =? 0)%Z
  | JFloat f => match f with S754_zero _ => false | _ => true end
  | JStr s => negb (String.eqb s "")
  | JArr l => match l with [] => false | _ => true end
  | JObj d => negb (bool_decide (d = ∅))
  end.

(** [d.get(k)] *)
Definition dict_get (d : gmap string json) (k : string) : json :=
  default JNull (d !! k).

Inductive exn : Type :=
| AttributeError | KeyError | TypeError | ValueError | ClientError.

Inductive outcome (A : Type) : Type :=
| Returns (a : A)
| Raises (e : exn).
Arguments Returns {A} a.
Arguments Raises {A} e.

(** [str.strip()] and [str.lower()]. *)
Fixpoint lstrip (t : text) : text :=
  match t with
  | c :: t' => if is_space c then lstrip t' else t
  | [] => []
  end.

Definition strip (s : string) : string :=
  string_of_list_ascii (rev (lstrip (rev (lstrip (list_ascii_of_string s))))).

Definition lower_char (c : ascii) : ascii :=
  if in_range 65 90 c || in_range 192 214 c || in_range 216 222 c
  then ascii_of_N (code c + 32) else c.

Definition lower (s : string) : string :=
  string_of_list_ascii (map lower_char (list_ascii_of_string s)).

(** [needle in hay] *)
Fixpoint contains (needle hay : string) : bool :=
  String.prefix needle hay ||
  match hay with
  | String _ hay' => contains needle hay'
  | EmptyString => false
  end.

(** ** worker/handler.py *)

Module Worker.

(** The item written to the table. *)
Record Item : Type := {
  tenant_id : json;          (* partition key *)
  log_id : json;             (* sort key *)
  source : json;
  original_text : json;
  modified_data : string;
  processed_at : string;
  received_at : json;
  request_id : json;
  worker_id : string;
  attempt : Z
}.

(** The DynamoDB table as the worker sees it: the stored items by primary
    key, the log of the writes that succeeded (newest first), and a clock
    that advances with every call that reaches the outside world. *)
Record World : Type := {
  items : gmap (string * string) Item;
  writes : list Item;
  clock : nat
}.

Definition tick (w : World) : World :=
  {| items := items w; writes := writes w; clock := S (clock w) |}.

(** One entry of [event['Records']]. *)
Record SQSRecord : Type := {
  messageId : string;
  receiptHandle : string;
  body : string;
  ApproximateReceiveCount : option string   (* attributes.get(...) *)
}.

Section Handler.

(** [json.loads]: the decoded value, or the text of the decoding error. *)
Variable json_loads : string -> json + string.
(** [int] on a string: [None] is [ValueError]. *)
Variable int_of_str : string -> option Z.
(** [os.environ.get('DYNAMODB_TABLE_NAME')] *)
Variable table_name : option string.
(** [datetime.utcnow().isoformat()] at a clock reading. *)
Variable isoformat : nat -> string.
(** Whether the service rejects or loses a write (throttling, network,
    validation of the attribute values). *)
Variable put_item_raises : World -> Item -> bool.

Definition get_dynamodb_table : outcome unit :=
  match table_name with
  | Some name => if String.eqb name "" then Raises ValueError else Returns tt
  | None => Raises ValueError
  end.

(** Modelled from the spec: [table.put_item(Item=item)] of DynamoDB, which
    is not part of the repository.  "A write with key (tenant_id, log_id)
    identical to an existing record's key replaces the stored value
    entirely"; the source says "DynamoDB will overwrite if same PK+SK
    exists".  Both key attributes are strings. *)
Definition put_item (w : World) (item : Item) : World * outcome unit :=
  match tenant_id item, log_id item with
  | JStr t, JStr l =>
      if put_item_raises w item then (tick w, Raises ClientError)
      else ({| items := <[(t, l) := item]> (items w);
               writes := item :: writes w;
               clock := S (clock w) |}, Returns tt)
  | _, _ => (tick w, Raises ClientError)
  end.

(** [len(text)] and the sleep depending on it. *)
Definition simulate_heavy_processing (text : json) : outcome unit :=
  match text with
  | JStr _ | JArr _ | JObj _ => Returns tt
  | _ => Raises TypeError
  end.

(** [redact_phone_numbers] applied to a value: [re.sub] accepts strings only. *)
Definition redact_value (text : json) : outcome string :=
  match text with
  | JStr s => Returns (redact_phone_numbers s)
  | _ => Raises TypeError
  end.

Definition store_processed_log (w : World) (message : gmap string json)
    (modified_data : string) (attempt : Z) (worker_id : string) : World * bool :=
  match get_dynamodb_table with
  | Raises _ => (w, false)
  | Returns _ =>
      match message !! "tenant_id", message !! "log_id",
            message !! "source", message !! "normalized_text" with
      | Some tenant, Some log, Some src, Some text =>
          let now := isoformat (clock w) in
          let w1 := tick w in
          match message !! "received_at", message !! "request_id" with
          | Some received, Some request =>
              let item :=
                {| tenant_id := tenant;
                   log_id := log;
                   source := src;
                   original_text := text;
                   modified_data := modified_data;
                   processed_at := now ++ "Z";
                   received_at := received;
                   request_id := request;
                   worker_id := worker_id;
                   attempt := attempt |} in
              match put_item w1 item with
              | (w2, Returns _) => (w2, true)
              | (w2, Raises _) => (w2, false)
              end
          | _, _ => (w1, false)              (* KeyError, caught *)
          end
      | _, _, _, _ => (w, false)             (* KeyError, caught *)
      end
  end.

Definition process_message (w : World) (message_body : json)
    (receipt_handle worker_id : string) (attempt : Z) : World * outcome bool :=
  match message_body with
  | JObj d =>
      let normalized_text := dict_get d "normalized_text" in
      match simulate_heavy_processing normalized_text with
      | Raises _ => (w, Returns false)       (* except Exception: return False *)
      | Returns _ =>
          match redact_value normalized_text with
          | Raises _ => (w, Returns false)
          | Returns modified_data =>
              let '(w', success) :=
                store_processed_log w d modified_data attempt worker_id in
              (w', Returns (if success then true else false))
          end
      end
  | _ =>
      (* [.get] fails in the [try] block and again in the [except] clause *)
      (w, Raises AttributeError)
  end.

(** The body of the loop over the records: [true] when the record is not
    added to [batch_item_failures]. *)
Definition handle_record (worker_id : string) (w : World) (record : SQSRecord)
    : World * bool :=
  match json_loads (body record) with
  | inr _ => (w, false)
  | inl message_body =>
      match
        match ApproximateReceiveCount record with
        | None => Some 1%Z
        | Some count => int_of_str count
        end
      with
      | None => (w, false)
      | Some attempt =>
          match process_message w message_body (receiptHandle record)
                  worker_id attempt with
          | (w', Returns success) => (w', success)
          | (w', Raises _) => (w', false)
          end
      end
  end.

(** [context] is [context.function_name] when a context is given.  The result
    is the world afterwards and the [itemIdentifier]s of
    [batchItemFailures]. *)
Definition lambda_handler (w : World) (context : option string)
    (Records : list SQSRecord) : World * list string :=
  let worker_id := default "local-worker" context in
  fold_left
    (fun '(w, batch_item_failures) record =>
       let '(w', success) := handle_record worker_id w record in
       (w', if success then batch_item_failures
            else batch_item_failures ++ [messageId record]))
    Records (w, []).

End Handler.

End Worker.

(** ** api/handler.py *)

Module Api.

Record Event : Type := {
  headers : list (string * string);
  body : option string;
  rawPath : option string;
  http_method : option string     (* requestContext.http.method *)
}.

Record Response : Type := {
  statusCode : Z;
  response_body : string;
  response_headers : list (string * string)
}.

Record Message : Type := {
  tenant_id : json;
  log_id : json;
  normalized_text : json;
  source : string;
  received_at : string;
  request_id : string
}.

(** The identifier generator and the clock. *)
Record Env : Type := {
  uuid4 : nat -> string;          (* the n-th [str(uuid.uuid4())] of the call *)
  utcnow : string                 (* [datetime.utcnow().isoformat()] *)
}.

(** What [sqs.send_message] is given. *)
Record SqsMessage : Type := {
  MessageBody : string;
  attr_tenant_id : string;
  attr_log_id : string
}.

Section Handler.

Variable json_loads : string -> json + string.
(** [json.dumps] of a dict written as a literal. *)
Variable json_dumps : list (string * json) -> string.
(** [os.environ.get('SQS_QUEUE_URL')] *)
Variable queue_url : option string.
(** Whether the transport fails to accept a message. *)
Variable send_message_raises : list SqsMessage -> SqsMessage -> bool.

Definition bad_request (message : string) : Response :=
  {| statusCode := 400;
     response_body :=
       json_dumps [("error", JStr "Bad Request"); ("message", JStr message)];
     response_headers := [("Content-Type", "application/json")] |}.

(** [{k.lower(): v for k, v in headers.items()}] *)
Definition lower_keys (headers : list (string * string)) : gmap string string :=
  fold_left (fun d '(k, v) => <[lower k := v]> d) headers ∅.

Definition validate_and_normalize (env : Env) (event : Event)
    : outcome (option Message * option Response) :=
  let headers := lower_keys (headers event) in
  let content_type := default "" (headers !! "content-type") in
  let body := default "" (body event) in
  if String.eqb body "" || String.eqb (strip body) "" then
    Returns (None, Some (bad_request "Request body cannot be empty"))
  else
    let fields : outcome (json * json * json * string + Response) :=
      if contains "application/json" content_type then
        match json_loads body with
        | inl (JObj payload) =>
            let tenant_id := dict_get payload "tenant_id" in
            let log_id := dict_get payload "log_id" in
            let normalized_text := dict_get payload "text" in
            if negb (truthy tenant_id) then
              Returns (inr (bad_request "tenant_id is required in JSON payload"))
            else if negb (truthy normalized_text) then
              Returns (inr (bad_request "text field is required in JSON payload"))
            else Returns (inl (tenant_id, log_id, normalized_text, "json_upload"))
        | inl _ => Raises AttributeError      (* payload.get *)
        | inr e => Returns (inr (bad_request ("Invalid JSON: " ++ e)))
        end
      else if contains "text/plain" content_type then
        match headers !! "x-tenant-id" with
        | Some tenant_id =>
            if String.eqb tenant_id "" then
              Returns (inr (bad_request
                "X-Tenant-ID header is required for text/plain requests"))
            else Returns (inl (JStr tenant_id, JNull, JStr body, "text_upload"))
        | None =>
            Returns (inr (bad_request
              "X-Tenant-ID header is required for text/plain requests"))
        end
      else
        Returns (inr (bad_request
          "Content-Type must be application/json or text/plain"))
    in
    match fields with
    | Raises e => Raises e
    | Returns (inr error_response) => Returns (None, Some error_response)
    | Returns (inl (tenant_id, log_id, normalized_text, source)) =>
        let '(log_id, drawn) :=
          if truthy log_id then (log_id, 0) else (JStr (uuid4 env 0), 1) in
        let request_id := default (uuid4 env drawn) (headers !! "x-request-id") in
        Returns (Some {| tenant_id := tenant_id;
                         log_id := log_id;
                         normalized_text := normalized_text;
                         source := source;
                         received_at := utcnow env ++ "Z";
                         request_id := request_id |}, None)
    end.

(** The queue is the list of accepted messages.  The two message attributes
    are declared as [String] values, so the client refuses other types. *)
Definition publish_to_sqs (queue : list SqsMessage) (message : Message)
    : list SqsMessage * bool :=
  match queue_url with
  | None => (queue, false)
  | Some url =>
      if String.eqb url "" then (queue, false)
      else
        match tenant_id message, log_id message with
        | JStr tenant, JStr log =>
            let sent :=
              {| MessageBody :=
                   json_dumps [("tenant_id", tenant_id message);
                               ("log_id", log_id message);
                               ("normalized_text", normalized_text message);
                               ("source", JStr (source message));
                               ("received_at", JStr (received_at message));
                               ("request_id", JStr (request_id message))];
                 attr_tenant_id := tenant;
                 attr_log_id := log |} in
            if send_message_raises queue sent then (queue, false)
            else (queue ++ [sent], true)
        | _, _ => (queue, false)
        end
  end.

Definition lambda_handler (env : Env) (queue : list SqsMessage) (event : Event)
    : list SqsMessage * outcome Response :=
  if negb (bool_decide (http_method event = Some "POST"))
     || negb (String.eqb (default "" (rawPath event)) "/ingest") then
    (queue, Returns {| statusCode := 404;
                       response_body := json_dumps [("error", JStr "Not Found")];
                       response_headers := [("Content-Type", "application/json")] |})
  else
    match validate_and_normalize env event with
    | Raises e => (queue, Raises e)
    | Returns (_, Some error_response) => (queue, Returns error_response)
    | Returns (None, None) => (queue, Raises TypeError)
    | Returns (Some message, None) =>
        let '(queue', success) := publish_to_sqs queue message in
        if negb success then
          (queue', Returns
             {| statusCode := 500;
                response_body :=
                  json_dumps [("error", JStr "Internal Server Error");
                              ("message", JStr "Failed to publish message to queue")];
                response_headers := [("Content-Type", "application/json")] |})
        else
          (queue', Returns
             {| statusCode := 202;
                response_body :=
                  json_dumps [("status", JStr "accepted");
                              ("log_id", log_id message);
                              ("request_id", JStr (request_id message))];
                response_headers := [("Content-Type", "application/json")] |})
    end.

End Handler.

End Api.

(** ** The lazily initialised module globals *)

Module Globals.

(** [get_queue_url] (api/handler.py).  [environ] is
    [os.environ.get('SQS_QUEUE_URL')], [QUEUE_URL] the module global
    ([None] until the first call); the result is the global afterwards and
    what the call returns. *)
Definition get_queue_url (environ QUEUE_URL : option string)
    : option string * outcome string :=
  match QUEUE_URL with
  | None =>
      match environ with
      | None => (None, Raises ValueError)
      | Some url =>
          if String.eqb url "" then (Some url, Raises ValueError)
          else (Some url, Returns url)
      end
  | Some url => (Some url, Returns url)
  end.

(** [get_dynamodb_table] (worker/handler.py).  The globals are [TABLE_NAME]
    and [table]; a table handle is the name it was opened with, and the
    function may return the initial [None] of [table]. *)
Definition get_dynamodb_table (environ : option string)
    (globals : option string * option string)
    : (option string * option string) * outcome (option string) :=
  let '(TABLE_NAME, table) := globals in
  match TABLE_NAME with
  | None =>
      match environ with
      | None => ((None, table), Raises ValueError)
      | Some name =>
          if String.eqb name "" then ((Some name, table), Raises ValueError)
          else ((Some name, Some name), Returns (Some name))
      end
  | Some _ => ((TABLE_NAME, table), Returns table)
  end.

(** The globals after [n] calls in a process whose environment is
    [environ]. *)
Fixpoint after_calls {G R : Type} (call : G -> G * R) (n : nat) (g : G) : G :=
  match n with
  | 0 => g
  | S n' => after_calls call n' (fst (call g))
  end.

End Globals.

(** The number of characters every match of an expression consumes at
    least: its mandatory atoms. *)
Definition mandatory (r : regex) : nat :=
  length (List.filter (fun a => match a with One _ => true | _ => false end) r).

(** ** Notions used in the statements *)

(** A string contains a phone-like pattern when one of the expressions
    matches somewhere in it ([re.search]). *)
Definition phone_like (s : string) : bool :=
  existsb (fun r => has_match r None (list_ascii_of_string s)) patterns.

(** The item [store_processed_log] builds from a message that has all the
    keys it reads, at the clock reading [now]. *)
Definition item_for (message : gmap string json) (modified_data : string)
    (attempt : Z) (worker_id now : string) : Worker.Item :=
  {| Worker.tenant_id := dict_get message "tenant_id";
     Worker.log_id := dict_get message "log_id";
     Worker.source := dict_get message "source";
     Worker.original_text := dict_get message "normalized_text";
     Worker.modified_data := modified_data;
     Worker.processed_at := now ++ "Z";
     Worker.received_at := dict_get message "received_at";
     Worker.request_id := dict_get message "request_id";
     Worker.worker_id := worker_id;
     Worker.attempt := attempt |}.

(** The world in which each record of a batch is processed. *)
Fixpoint batch_trace (step : Worker.World -> Worker.SQSRecord -> Worker.World * bool)
    (w : Worker.World) (records : list Worker.SQSRecord)
    : list (Worker.World * Worker.SQSRecord) :=
  match records with
  | [] => []
  | r :: rest => (w, r) :: batch_trace step (fst (step w r)) rest
  end.

(** The identifiers of the records of a trace that failed, and the world
    after the batch. *)
Definition failed_ids (step : Worker.World -> Worker.SQSRecord -> Worker.World * bool)
    (trace : list (Worker.World * Worker.SQSRecord)) : list string :=
  map (fun p => Worker.messageId (snd p))
    (List.filter (fun p => negb (snd (step (fst p) (snd p)))) trace).

Definition end_world (step : Worker.World -> Worker.SQSRecord -> Worker.World * bool)
    (w : Worker.World) (records : list Worker.SQSRecord) : Worker.World :=
  fold_left (fun w r => fst (step w r)) records w.

(** The record a delivered item stands for, in the words of the
    specification of the batch processor: the body is decoded into a
    message, the redactor is applied to its normalized_text, and a
    processed record is built from the message's fields, the redacted
    text, the time, the attempt count and the worker's identity, to be
    written under the key (tenant_id, log_id).  There is none when the body
    does not decode to an object, the receive count is not a number, one of
    the six fields is missing, or the text or a key attribute is not a
    string. *)
Definition record_of (json_loads : string -> json + string)
    (int_of_str : string -> option Z) (worker_id now : string)
    (r : Worker.SQSRecord) : option (string * string * Worker.Item) :=
  match json_loads (Worker.body r),
        match Worker.ApproximateReceiveCount r with
        | None => Some 1%Z
        | Some count => int_of_str count
        end
  with
  | inl (JObj d), Some attempt =>
      match d !! "tenant_id", d !! "log_id", d !! "normalized_text",
            d !! "source", d !! "received_at", d !! "request_id" with
      | Some (JStr t), Some (JStr l), Some (JStr text), Some _, Some _, Some _ =>
          Some (t, l, item_for d (redact_phone_numbers text) attempt worker_id now)
      | _, _, _, _, _, _ => None
      end
  | _, _ => None
  end.

(** The outcome of processing a delivered item in a world: the key and the
    record that is persisted, or [None] when processing fails: there is no
    record to build, the table is not configured, or the store refuses the
    write. *)
Definition persisted_record (json_loads : string -> json + string)
    (int_of_str : string -> option Z) (table_name : option string)
    (isoformat : nat -> string)
    (put_item_raises : Worker.World -> Worker.Item -> bool)
    (worker_id : string) (w : Worker.World) (r : Worker.SQSRecord)
    : option (string * string * Worker.Item) :=
  match table_name with
  | Some name =>
      if String.eqb name "" then None
      else
        match record_of json_loads int_of_str worker_id
                (isoformat (Worker.clock w)) r with
        | Some (key, item) =>
            if put_item_raises (Worker.tick w) item then None else Some (key, item)
        | None => None
        end
  | None => None
  end.

Definition is_processed
    (outcome_of : Worker.World -> Worker.SQSRecord -> option (string * string * Worker.Item))
    (p : Worker.World * Worker.SQSRecord) : bool :=
  match outcome_of (fst p) (snd p) with Some _ => true | None => false end.

(** The identifiers of the items of a trace whose processing failed, and
    the records of the others, both in delivery order. *)
Definition unprocessed_ids
    (outcome_of : Worker.World -> Worker.SQSRecord -> option (string * string * Worker.Item))
    (trace : list (Worker.World * Worker.SQSRecord)) : list string :=
  map (fun p => Worker.messageId (snd p))
    (List.filter (fun p => negb (is_processed outcome_of p)) trace).

Definition written_records
    (outcome_of : Worker.World -> Worker.SQSRecord -> option (string * string * Worker.Item))
    (trace : list (Worker.World * Worker.SQSRecord))
    : list (string * string * Worker.Item) :=
  omap (fun p => outcome_of (fst p) (snd p)) trace.

(** A table after a list of records has been written to it, one after the
    other, each replacing what its key held. *)
Definition write_all (records : list (string * string * Worker.Item))
    (table : gmap (string * string) Worker.Item) : gmap (string * string) Worker.Item :=
  fold_left (fun m p => <[fst p := snd p]> m) records table.

(** The log identifier a request brings along: the truthy [log_id] of a
    JSON payload.  A plain-text request brings none. *)
Definition supplied_log_id (json_loads : string -> json + string)
    (event : Api.Event) : option json :=
  if contains "application/json"
       (default "" (Api.lower_keys (Api.headers event) !! "content-type"))
  then
    match json_loads (default "" (Api.body event)) with
    | inl (JObj payload) =>
        if truthy (dict_get payload "log_id")
        then Some (dict_get payload "log_id") else None
    | _ => None
    end
  else None.

(** ** Sample inputs *)

Definition dq : string := String "034"%char "".
Definition quoted (s : string) : string := dq ++ s ++ dq.
Definition member_raw (k rendered : string) : string := quoted k ++ ": " ++ rendered.
Definition member (k v : string) : string := member_raw k (quoted v).

(** [{"text": "hello"}] *)
Definition body_no_tenant : string := "{" ++ member "text" "hello" ++ "}".
(** [{"tenant_id": "acme", "text": "   "}] *)
Definition body_blank_text : string :=
  "{" ++ member "tenant_id" "acme" ++ ", " ++ member "text" "   " ++ "}".
(** [{"tenant_id": "acme", "log_id": "001", "text": "User 555-0199 accessed /api/login"}] *)
Definition body_full : string :=
  "{" ++ member "tenant_id" "acme" ++ ", " ++ member "log_id" "001" ++ ", "
  ++ member "text" "User 555-0199 accessed /api/login" ++ "}".

(** A queue message as the API serialises it. *)
Definition queued_body (log text : string) : string :=
  "{" ++ member "tenant_id" "acme" ++ ", " ++ member "log_id" log ++ ", "
  ++ member "normalized_text" text ++ ", " ++ member "source" "text_upload" ++ ", "
  ++ member "received_at" "2024-01-01T00:00:00Z" ++ ", "
  ++ member "request_id" "req-1" ++ "}".

Definition queued_dict (log text : string) : gmap string json :=
  list_to_map
    [("tenant_id", JStr "acme"); ("log_id", JStr log);
     ("normalized_text", JStr text); ("source", JStr "text_upload");
     ("received_at", JStr "2024-01-01T00:00:00Z"); ("request_id", JStr "req-1")].

Definition queued_value (log text : string) : json := JObj (queued_dict log text).

(** [json.loads] on the bodies above and on two bodies that are not objects;
    no other body is used. *)
Definition json_loads_sample (s : string) : json + string :=
  if String.eqb s body_no_tenant then inl (JObj {[ "text" := JStr "hello" ]})
  else if String.eqb s body_blank_text then
    inl (JObj (list_to_map [("tenant_id", JStr "acme"); ("text", JStr "   ")]))
  else if String.eqb s body_full then
    inl (JObj (list_to_map
      [("tenant_id", JStr "acme"); ("log_id", JStr "001");
       ("text", JStr "User 555-0199 accessed /api/login")]))
  else if String.eqb s "[]" then inl (JArr [])
  else if String.eqb s (queued_body "001" "first 555-0199") then
    inl (queued_value "001" "first 555-0199")
  else if String.eqb s (queued_body "002" "second") then
    inl (queued_value "002" "second")
  else if String.eqb s (queued_body "001" "second") then
    inl (queued_value "001" "second")
  else inr "Expecting value: line 1 column 1 (char 0)".

(** [json.dumps] on a dict whose values are plain strings without
    characters to escape (or [None]); the samples serialise nothing else. *)
Definition json_dumps_sample (d : list (string * json)) : string :=
  ("{" ++ String.concat ", "
            (map (fun kv : string * json =>
                    member_raw (fst kv)
                      match snd kv with JStr s => quoted s | _ => "null" end) d)
   ++ "}")%string.

Definition int_of_str_sample (s : string) : option Z :=
  if String.eqb s "1" then Some 1%Z
  else if String.eqb s "2" then Some 2%Z
  else None.

Definition env_sample : Api.Env :=
  {| Api.uuid4 := fun n => if (n =? 0)%nat then "uuid-a" else "uuid-b";
     Api.utcnow := "2024-01-01T00:00:00" |}.

Definition post (headers : list (string * string)) (body : string) : Api.Event :=
  {| Api.headers := headers; Api.body := Some body;
     Api.rawPath := Some "/ingest"; Api.http_method := Some "POST" |}.

Definition isoformat_sample (n : nat) : string := "2024-01-01T00:00:01".

(** An environment in which no call to a service fails. *)
Definition never_raises {A B : Type} (_ : A) (_ : B) : bool := false.

Definition world0 : Worker.World :=
  {| Worker.items := ∅; Worker.writes := []; Worker.clock := 0 |}.

Definition sqs_record (id body : string) : Worker.SQSRecord :=
  {| Worker.messageId := id; Worker.receiptHandle := "rh-" ++ id;
     Worker.body := body; Worker.ApproximateReceiveCount := Some "1" |}.

(** A batch of three records; the second is not JSON. *)
Definition batch_sample : list Worker.SQSRecord :=
  [sqs_record "m1" (queued_body "001" "first 555-0199");
   sqs_record "m2" "not json";
   sqs_record "m3" (queued_body "002" "second")].

Definition text_event : Api.Event :=
  post [("Content-Type", "text/plain; charset=utf-8"); ("X-Tenant-ID", "acme")]
    "hello  world".

Definition empty_tenant_event : Api.Event :=
  post [("Content-Type", "text/plain"); ("X-Tenant-ID", "")] "hello".

Definition json_event (body : string) : Api.Event :=
  post [("Content-Type", "application/json")] body.

(** The message the normalizer makes of [text_event], its six fields in the
    order of the serialised dict, and a decoder that knows that dict. *)
Definition message_sample : Api.Message :=
  {| Api.tenant_id := JStr "acme";
     Api.log_id := JStr "uuid-a";
     Api.normalized_text := JStr "hello  world";
     Api.source := "text_upload";
     Api.received_at := "2024-01-01T00:00:00Z";
     Api.request_id := "uuid-b" |}.

Definition fields_sample : list (string * json) :=
  [("tenant_id", JStr "acme"); ("log_id", JStr "uuid-a");
   ("normalized_text", JStr "hello  world"); ("source", JStr "text_upload");
   ("received_at", JStr "2024-01-01T00:00:00Z"); ("request_id", JStr "uuid-b")].

Definition json_loads_queue (s : string) : json + string :=
  if String.eqb s (json_dumps_sample fields_sample)
  then inl (JObj (list_to_map fields_sample))
  else inr "Expecting value: line 1 column 1 (char 0)".

(** * Properties of the matcher *)

Section Matcher.

Implicit Types (r : regex) (prev : option ascii) (s : text) (n : nat).

Lemma ctx_after_app prev b1 b2 :
  ctx_after prev (b1 ++ b2) = ctx_after (ctx_after prev b1) b2.
Proof. unfold ctx_after. apply fold_left_app. Qed.

Lemma ctx_after_snoc prev b c : ctx_after prev (b ++ [c]) = Some c.
Proof. rewrite ctx_after_app. reflexivity. Qed.

Lemma match_bound r : forall prev s n, match_here r prev s = Some n -> n <= length s.
Proof.
  induction r as [|[k|k|] r IH]; intros prev s n H; simpl in H.
  - injection H as <-. lia.
  - destruct s as [|x s']; [discriminate|].
    destruct (accepts k x); [|discriminate].
    destruct (match_here r (Some x) s') eqn:E; simpl in H; [|discriminate].
    injection H as <-. apply IH in E. simpl. lia.
  - destruct s as [|x s']; [apply IH in H; exact H|].
    destruct (accepts k x); [|apply IH in H; exact H].
    destruct (match_here r (Some x) s') eqn:E; simpl in H.
    + injection H as <-. apply IH in E. simpl. lia.
    + apply IH in H. exact H.
  - destruct (at_boundary prev (head s)); [|discriminate]. eauto.
Qed.

(** Only consumable characters are consumed. *)
Lemma match_alphabet r :
  forall prev s n, match_here r prev s = Some n ->
    Forall (fun x => consumable r x = true) (take n s).
Proof.
  induction r as [|[k|k|] r IH]; intros prev s n H; simpl in H.
  - injection H as <-. rewrite take_0. constructor.
  - destruct s as [|x s']; [discriminate|].
    destruct (accepts k x) eqn:A; [|discriminate].
    destruct (match_here r (Some x) s') eqn:E; simpl in H; [|discriminate].
    injection H as <-. simpl. constructor.
    + unfold consumable. simpl. rewrite A. reflexivity.
    + eapply Forall_impl; [eapply IH, E|].
      intros y Hy. unfold consumable in *. simpl. rewrite Hy. apply orb_true_r.
  - assert (skip : forall m, match_here r prev s = Some m ->
              Forall (fun x => consumable (Opt k :: r) x = true) (take m s)).
    { intros m Hm. eapply Forall_impl; [eapply IH, Hm|].
      intros y Hy. unfold consumable in *. simpl. rewrite Hy. apply orb_true_r. }
    destruct s as [|x s']; [auto|].
    destruct (accepts k x) eqn:A; [|auto].
    destruct (match_here r (Some x) s') eqn:E; simpl in H; [|auto].
    injection H as <-. simpl. constructor.
    + unfold consumable. simpl. rewrite A. reflexivity.
    + eapply Forall_impl; [eapply IH, E|].
      intros y Hy. unfold consumable in *. simpl. rewrite Hy. apply orb_true_r.
  - destruct (at_boundary prev (head s)); [|discriminate].
    eapply Forall_impl; [eapply IH, H|].
    intros y Hy. unfold consumable in *. simpl. exact Hy.
Qed.

(** The context before the match matters only through its word class. *)
Lemma match_prev_ext r :
  forall prev prev' s, is_word_opt prev = is_word_opt prev' ->
    match_here r prev s = match_here r prev' s.
Proof.
  induction r as [|[k|k|] r IH]; intros prev prev' s E; simpl; try reflexivity.
  - rewrite (IH prev prev' s E). reflexivity.
  - unfold at_boundary. rewrite E. destruct (xorb _ _); auto.
Qed.

(** A match of [r1 ++ r2] ends with a match of [r2]. *)
Lemma match_split r1 r2 :
  forall prev s n, match_here (r1 ++ r2) prev s = Some n ->
    exists n1 n2, n = n1 + n2 /\ n1 <= length s /\
      match_here r2 (ctx_after prev (take n1 s)) (drop n1 s) = Some n2.
Proof.
  induction r1 as [|[k|k|] r1 IH]; intros prev s n H; simpl in H.
  - exists 0, n. rewrite take_0, drop_0. simpl. split; [reflexivity|]. split; [lia|exact H].
  - destruct s as [|x s']; [discriminate|].
    destruct (accepts k x); [|discriminate].
    destruct (match_here (r1 ++ r2) (Some x) s') eqn:E; simpl in H; [|discriminate].
    injection H as <-. apply IH in E as (n1 & n2 & -> & Hl & E).
    exists (S n1), n2. simpl. split; [reflexivity|]. split; [lia|exact E].
  - assert (skip : forall m, match_here (r1 ++ r2) prev s = Some m ->
              exists n1 n2, m = n1 + n2 /\ n1 <= length s /\
                match_here r2 (ctx_after prev (take n1 s)) (drop n1 s) = Some n2)
      by (intros m Hm; apply IH, Hm).
    destruct s as [|x s']; [auto|].
    destruct (accepts k x); [|auto].
    destruct (match_here (r1 ++ r2) (Some x) s') eqn:E; simpl in H; [|auto].
    injection H as <-. apply IH in E as (n1 & n2 & -> & Hl & E).
    exists (S n1), n2. simpl. split; [reflexivity|]. split; [lia|exact E].
  - destruct (at_boundary prev (head s)); [|discriminate]. auto.
Qed.

(** Locality: a deterministic expression looks only at the characters it
    consumes and at the word class of the next one. *)
Lemma match_local r :
  det r ->
  forall prev s n, match_here r prev s = Some n ->
  forall s', take n s' = take n s ->
    is_word_opt (s' !! n) = is_word_opt (s !! n) ->
    match_here r prev s' = Some n.
Proof.
  induction r as [|[k|k|] r IH]; intros D prev s n H s' Ht Hw; simpl in H, D.
  - exact H.
  - destruct s as [|x t]; [discriminate|].
    destruct (accepts k x) eqn:A; [|discriminate].
    destruct (match_here r (Some x) t) eqn:E; simpl in H; [|discriminate].
    injection H as <-.
    destruct s' as [|x' t']; [discriminate|]. simpl in Ht. injection Ht as -> Ht.
    simpl. rewrite A. erewrite IH; eauto.
  - destruct D as [D1 D2].
    destruct r as [|[k'| |] r'']; try contradiction.
    assert (Hskip : forall x t, s = x :: t -> accepts k x = true ->
              match_here (One k' :: r'') prev s = Some n -> False).
    { intros x t -> A Hm. simpl in Hm. rewrite (D1 x A) in Hm. discriminate. }
    assert (Hpos : match_here (One k' :: r'') prev s = Some n ->
              match_here (Opt k :: One k' :: r'') prev s' = Some n).
    { intros Hm. pose proof (IH D2 _ _ _ Hm s' Ht Hw) as Hm'.
      destruct s as [|x t]; [discriminate|].
      destruct s' as [|x' t']; [discriminate|].
      assert (x' = x) as ->.
      { simpl in Hm. destruct (accepts k' x); [|discriminate].
        destruct (match_here r'' (Some x) t); [|discriminate].
        injection Hm as <-. simpl in Ht. congruence. }
      destruct (accepts k x) eqn:A; [exfalso; eapply Hskip; eauto|].
      change (match_here (Opt k :: One k' :: r'') prev (x :: t'))
        with (match (if accepts k x
                     then S <$> match_here (One k' :: r'') (Some x) t' else None)
              with Some m => Some m
              | None => match_here (One k' :: r'') prev (x :: t') end).
      rewrite A. exact Hm'. }
    destruct s as [|x t]; [auto|].
    destruct (accepts k x) eqn:A; [|auto].
    destruct (match_here (One k' :: r'') (Some x) t) eqn:E; simpl in H.
    + injection H as <-.
      destruct s' as [|x' t']; [discriminate|]. simpl in Ht. injection Ht as -> Ht.
      change (match_here (Opt k :: One k' :: r'') prev (x :: t'))
        with (match (if accepts k x
                     then S <$> match_here (One k' :: r'') (Some x) t' else None)
              with Some m => Some m
              | None => match_here (One k' :: r'') prev (x :: t') end).
      rewrite A. erewrite (IH D2 _ _ _ E t' Ht Hw). reflexivity.
    + exfalso. eapply Hskip; eauto.
  - destruct (at_boundary prev (head s)) eqn:B; [|discriminate].
    assert (is_word_opt (head s') = is_word_opt (head s)) as Hh.
    { destruct n as [|n].
      - rewrite !head_lookup. exact Hw.
      - pose proof (match_bound _ _ _ _ H) as Hl.
        destruct s as [|x t]; [simpl in Hl; lia|].
        destruct s' as [|x' t']; [discriminate|].
        simpl in Ht. injection Ht as -> _. reflexivity. }
    simpl. unfold at_boundary in *. rewrite Hh, B. eauto.
Qed.

End Matcher.

(** * Properties of [re.sub] for expressions without empty matches *)

Section Substitution.

Variable p : regex.
Hypothesis p_nonempty : forall prev s n, match_here p prev s = Some n -> 0 < n.

Local Abbreviation sub prev s := (sub_from p REDACTED prev 0 s).

Lemma sub_skip :
  forall k prev s, k <= length s ->
    sub_from p REDACTED prev k s
    = sub_from p REDACTED (ctx_after prev (take k s)) 0 (drop k s).
Proof.
  induction k as [|k IH]; intros prev s Hk.
  - rewrite take_0, drop_0. reflexivity.
  - destruct s as [|c s']; [simpl in Hk; lia|].
    simpl in Hk. simpl. apply IH. lia.
Qed.

Lemma sub_nil prev : sub prev [] = [].
Proof.
  simpl. destruct (match_here p prev []) eqn:E; [|reflexivity].
  pose proof (p_nonempty _ _ _ E). apply match_bound in E. simpl in E. lia.
Qed.

Lemma sub_keep prev c s :
  match_here p prev (c :: s) = None -> sub prev (c :: s) = c :: sub (Some c) s.
Proof. intros E. simpl in *. rewrite E. reflexivity. Qed.

Lemma sub_hit prev s n :
  match_here p prev s = Some n ->
  sub prev s = REDACTED ++ sub (ctx_after prev (take n s)) (drop n s).
Proof.
  intros E. pose proof (p_nonempty _ _ _ E) as Hn.
  pose proof (match_bound _ _ _ _ E) as Hl.
  destruct s as [|c s']; [simpl in Hl; lia|].
  destruct n as [|m]; [lia|].
  cbn [sub_from]. rewrite E. simpl in Hl.
  rewrite sub_skip by lia. reflexivity.
Qed.

(** Induction along the scan of [re.sub]. *)
Lemma sub_ind (P : option ascii -> text -> text -> Prop) :
  (forall prev, P prev [] []) ->
  (forall prev c s, match_here p prev (c :: s) = None ->
     P (Some c) s (sub (Some c) s) -> P prev (c :: s) (c :: sub (Some c) s)) ->
  (forall prev s n, match_here p prev s = Some n ->
     P (ctx_after prev (take n s)) (drop n s)
       (sub (ctx_after prev (take n s)) (drop n s)) ->
     P prev s (REDACTED ++ sub (ctx_after prev (take n s)) (drop n s))) ->
  forall prev s, P prev s (sub prev s).
Proof.
  intros Hnil Hkeep Hhit prev s.
  remember (length s) as len eqn:Hlen.
  revert prev s Hlen.
  induction len as [len IH] using lt_wf_ind. intros prev s ->.
  destruct (match_here p prev s) as [n|] eqn:E.
  - rewrite (sub_hit _ _ _ E). apply Hhit; [exact E|].
    pose proof (p_nonempty _ _ _ E). pose proof (match_bound _ _ _ _ E).
    eapply IH; [|reflexivity]. rewrite length_drop. lia.
  - destruct s as [|c s'].
    + rewrite sub_nil. apply Hnil.
    + rewrite (sub_keep _ _ _ E). apply Hkeep; [exact E|].
      eapply IH; [|reflexivity]. simpl. lia.
Qed.

(** Text without a match is returned unchanged. *)
Lemma sub_no_match :
  forall s prev, has_match p prev s = false -> sub prev s = s.
Proof.
  induction s as [|c s IH]; intros prev H; simpl in H.
  - simpl. destruct (match_here p prev []); [discriminate|reflexivity].
  - destruct (match_here p prev (c :: s)) eqn:E; [discriminate|].
    rewrite (sub_keep _ _ _ E). f_equal. apply IH, H.
Qed.

(** ** Matches of an expression [q] in the output of [re.sub p] *)

Variable q : regex.
Hypothesis q_det : det q.
Hypothesis q_repl : Forall (fun x => consumable q x = false) REDACTED.
Hypothesis q_last :
  forall prev s n, match_here q prev s = Some n ->
    0 < n /\ is_word_opt (s !! (n - 1)) = true.
Hypothesis p_start :
  forall prev s n, match_here p prev s = Some n ->
    is_word_opt (head s) = false \/ is_word_opt prev = false.
Hypothesis q_ctx :
  (forall prev prev' s, match_here q prev s = match_here q prev' s) \/
  ((forall prev s n, match_here q prev s = Some n -> is_word_opt (head s) = true) /\
   (forall prev s n, match_here p prev s = Some n -> is_word_opt (s !! n) = false)).

Lemma ctx_after_last prev g :
  ctx_after prev g = match last g with Some d => Some d | None => prev end.
Proof.
  induction g as [|c g IH] using rev_ind; [reflexivity|].
  rewrite ctx_after_snoc, last_snoc. reflexivity.
Qed.

Lemma match_head_consumable prev x s n :
  match_here q prev (x :: s) = Some n -> consumable q x = true.
Proof.
  intros E. destruct (q_last _ _ _ E) as [Hn _].
  apply match_alphabet in E. destruct n; [lia|].
  simpl in E. inversion E; assumption.
Qed.

Lemma has_match_skip b :
  Forall (fun x => consumable q x = false) b ->
  forall prev R, has_match q prev (b ++ R) = has_match q (ctx_after prev b) R.
Proof.
  induction 1 as [|x b Hx Hb IH]; intros prev R; [reflexivity|].
  cbn [app has_match].
  destruct (match_here q prev (x :: b ++ R)) eqn:E.
  - apply match_head_consumable in E. congruence.
  - apply IH.
Qed.

Lemma has_match_suffix b :
  forall prev s, has_match q (ctx_after prev b) s = true ->
    has_match q prev (b ++ s) = true.
Proof.
  induction b as [|c b IH]; intros prev s H; [exact H|].
  cbn [app has_match]. destruct (match_here q prev (c :: b ++ s)); [reflexivity|].
  apply IH, H.
Qed.

Lemma has_match_ctx_change a b R :
  has_match q a R = true ->
  (forall m, match_here q a R = Some m -> match_here q b R = Some m) ->
  has_match q b R = true.
Proof.
  intros H Hm. destruct R as [|c R]; simpl in *.
  - destruct (match_here q a []) eqn:E; [|discriminate].
    rewrite (Hm _ eq_refl). reflexivity.
  - destruct (match_here q a (c :: R)) eqn:E.
    + rewrite (Hm _ eq_refl). reflexivity.
    + destruct (match_here q b (c :: R)); [reflexivity|exact H].
Qed.

(** A match of [q] that begins in copied text was already there. *)
Lemma head_match_back :
  forall prev s g prev0 n,
    ctx_after prev g = prev ->
    match_here q prev0 (g ++ sub prev s) = Some n ->
    match_here q prev0 (g ++ s) = Some n.
Proof.
  intros prev s.
  apply (sub_ind (fun prev s R => forall g prev0 n,
    ctx_after prev g = prev ->
    match_here q prev0 (g ++ R) = Some n ->
    match_here q prev0 (g ++ s) = Some n)); clear prev s.
  - intros prev g prev0 n _ H. exact H.
  - intros prev c s _ IH g prev0 n _ H.
    rewrite (cons_middle c g) in H |- *. rewrite app_assoc in H |- *.
    apply IH; [apply ctx_after_snoc|exact H].
  - intros prev s k Ep _ g prev0 n Hg H.
    destruct (q_last _ _ _ H) as [Hn Hw].
    assert (n <= length g) as Hle.
    { destruct (decide (n <= length g)) as [|Hgt]; [assumption|exfalso].
      pose proof (match_alphabet _ _ _ _ H) as Hall.
      rewrite Forall_lookup in Hall.
      assert (take n (g ++ REDACTED ++ sub (ctx_after prev (take k s)) (drop k s))
              !! length g = Some "["%char) as Hl.
      { rewrite lookup_take_lt by lia. rewrite lookup_app_r by lia.
        rewrite Nat.sub_diag. reflexivity. }
      apply Hall in Hl. inversion q_repl as [|? ? Hb _]. congruence. }
    eapply match_local; [exact q_det|exact H| |].
    + rewrite !take_app_le by lia. reflexivity.
    + destruct (decide (n < length g)) as [Hlt|Hge].
      * rewrite !lookup_app_l by lia. reflexivity.
      * assert (n = length g) as -> by lia.
        rewrite !lookup_app_r by lia. rewrite Nat.sub_diag.
        rewrite <- head_lookup. change (is_word_opt (head s) = false).
        destruct (p_start _ _ _ Ep) as [Hs|Hp]; [exact Hs|exfalso].
        rewrite lookup_app_l in Hw by lia.
        rewrite <- Hg, ctx_after_last, last_lookup in Hp.
        replace (pred (length g)) with (length g - 1) in Hp by lia.
        destruct (g !! (length g - 1)); simpl in *; congruence.
Qed.

Lemma hit_ctx prev s n m :
  match_here p prev s = Some n ->
  match_here q (Some "]"%char) (sub (ctx_after prev (take n s)) (drop n s)) = Some m ->
  match_here q (ctx_after prev (take n s)) (sub (ctx_after prev (take n s)) (drop n s))
  = Some m.
Proof.
  intros Ep Eq. destruct q_ctx as [Hfree|[Hq Hp]].
  - rewrite <- Eq. apply Hfree.
  - exfalso.
    pose proof (head_match_back _ _ [] _ _ eq_refl Eq) as E. simpl in E.
    apply Hq in E. apply Hp in Ep.
    rewrite head_lookup, lookup_drop, Nat.add_0_r in E. congruence.
Qed.

(** [re.sub p] creates no new match of [q]. *)
Lemma sub_no_new_match :
  forall prev s, has_match q prev (sub prev s) = true -> has_match q prev s = true.
Proof.
  apply (sub_ind (fun prev s R => has_match q prev R = true -> has_match q prev s = true)).
  - intros prev H. exact H.
  - intros prev c s _ IH H.
    cbn [has_match] in H |- *.
    destruct (match_here q prev (c :: sub (Some c) s)) eqn:E.
    + apply (head_match_back (Some c) s [c] prev) in E; [|reflexivity].
      simpl in E. rewrite E. reflexivity.
    + destruct (match_here q prev (c :: s)); [reflexivity|]. apply IH, H.
  - intros prev s n Ep IH H.
    rewrite (has_match_skip _ q_repl) in H.
    change (ctx_after prev REDACTED) with (Some "]"%char) in H.
    rewrite <- (take_drop n s). apply has_match_suffix, IH.
    eapply has_match_ctx_change; [exact H|].
    intros m Em. eapply hit_ctx; eauto.
Qed.

(** After [re.sub p] no match of [p] is left. *)
Lemma sub_no_rematch :
  q = p -> forall prev s, has_match p prev (sub prev s) = false.
Proof.
  intros Hqp.
  pose proof head_match_back as Hback. pose proof has_match_skip as Hskip.
  pose proof has_match_ctx_change as Hchange. pose proof hit_ctx as Hhit.
  pose proof q_repl as Hrepl.
  rewrite Hqp in Hback, Hskip, Hchange, Hhit, Hrepl.
  apply (sub_ind (fun prev s R => has_match p prev R = false)).
  - intros prev. simpl. destruct (match_here p prev []) eqn:E; [|reflexivity].
    pose proof (p_nonempty _ _ _ E). apply match_bound in E. simpl in E. lia.
  - intros prev c s Ep IH. cbn [has_match].
    destruct (match_here p prev (c :: sub (Some c) s)) eqn:E; [|exact IH].
    apply (Hback (Some c) s [c] prev) in E; [|reflexivity].
    simpl in E. congruence.
  - intros prev s n Ep IH.
    destruct (has_match p prev
      (REDACTED ++ sub (ctx_after prev (take n s)) (drop n s))) eqn:H; [|reflexivity].
    rewrite (Hskip _ Hrepl) in H.
    change (ctx_after prev REDACTED) with (Some "]"%char) in H.
    apply (Hchange _ (ctx_after prev (take n s))) in H; [congruence|].
    intros m Em. eapply Hhit; eauto.
Qed.

End Substitution.

(** * The three phone-number expressions *)

Section Patterns.

Lemma digit_is_word c : is_digit c = true -> is_word c = true.
Proof. unfold is_word, is_digit. intros ->. reflexivity. Qed.

Lemma space_not_digit x : accepts CSpace x = true -> accepts CDigit x = false.
Proof. destruct x as [[] [] [] [] [] [] [] []]; vm_compute; congruence. Qed.

Lemma dash_dot_not_digit x : accepts dash_dot x = true -> accepts CDigit x = false.
Proof. destruct x as [[] [] [] [] [] [] [] []]; vm_compute; congruence. Qed.

Lemma det_paren : det pat_paren.
Proof.
  simpl. split; [exact space_not_digit|]. split; [exact dash_dot_not_digit|exact I].
Qed.

Lemma det_ten : det pat_ten.
Proof. simpl. exact I. Qed.

Lemma det_seven : det pat_seven.
Proof. simpl. split; [exact dash_dot_not_digit|exact I]. Qed.

(** None of the expressions can consume a character of the replacement. *)
Lemma repl_not_consumed r :
  In r patterns -> Forall (fun x => consumable r x = false) REDACTED.
Proof.
  intros [<-|[<-|[<-|[]]]]; repeat constructor.
Qed.

(** A match ends with a digit; behind a trailing [\b] no word character
    follows. *)
Lemma match_ends_with_digit r1 tl prev s n :
  tl = [] \/ tl = [WordB] ->
  match_here (r1 ++ One CDigit :: tl) prev s = Some n ->
  0 < n /\ is_word_opt (s !! (n - 1)) = true /\
  (tl = [WordB] -> is_word_opt (s !! n) = false).
Proof.
  intros Htl H.
  apply match_split in H as (n1 & n2 & -> & Hl & H).
  cbn [match_here] in H.
  destruct (drop n1 s) as [|d rest] eqn:Ed; [discriminate|].
  cbn [accepts] in H. destruct (is_digit d) eqn:Hd; [|discriminate].
  assert (s !! n1 = Some d) as Hn1.
  { rewrite <- (Nat.add_0_r n1), <- lookup_drop, Ed. reflexivity. }
  assert (s !! (n1 + 1) = head rest) as Hn2.
  { rewrite <- lookup_drop, Ed. simpl. symmetry. apply head_lookup. }
  destruct Htl as [-> | ->]; cbn [match_here] in H.
  - injection H as <-. replace (n1 + 1 - 1) with n1 by lia. rewrite Hn1.
    split; [lia|]. split; [apply digit_is_word, Hd|discriminate].
  - destruct (at_boundary (Some d) (head rest)) eqn:B; [|discriminate].
    injection H as <-. replace (n1 + 1 - 1) with n1 by lia. rewrite Hn1, Hn2.
    split; [lia|]. split; [apply digit_is_word, Hd|]. intros _.
    unfold at_boundary in B. simpl in B. rewrite (digit_is_word _ Hd) in B.
    destruct (is_word_opt (head rest)); [discriminate|reflexivity].
Qed.

Lemma paren_shape :
  exists r1, pat_paren = r1 ++ One CDigit :: [].
Proof. eexists (removelast pat_paren). reflexivity. Qed.

Lemma ten_shape :
  exists r1, pat_ten = r1 ++ One CDigit :: [WordB].
Proof. eexists (removelast (removelast pat_ten)). reflexivity. Qed.

Lemma seven_shape :
  exists r1, pat_seven = r1 ++ One CDigit :: [WordB].
Proof. eexists (removelast (removelast pat_seven)). reflexivity. Qed.

Lemma match_last r prev s n :
  In r patterns -> match_here r prev s = Some n ->
  0 < n /\ is_word_opt (s !! (n - 1)) = true.
Proof.
  intros [<-|[<-|[<-|[]]]] H.
  - destruct paren_shape as [r1 E]. rewrite E in H.
    eapply match_ends_with_digit in H as (? & ? & _); eauto.
  - destruct ten_shape as [r1 E]. rewrite E in H.
    eapply match_ends_with_digit in H as (? & ? & _); eauto.
  - destruct seven_shape as [r1 E]. rewrite E in H.
    eapply match_ends_with_digit in H as (? & ? & _); eauto.
Qed.

Lemma match_nonempty r prev s n :
  In r patterns -> match_here r prev s = Some n -> 0 < n.
Proof. intros Hr H. eapply match_last; eauto. Qed.

(** The two expressions delimited by [\b] start at a digit after a
    non-word character and stop before a non-word character. *)
Lemma bounded_start r' prev s n :
  match_here (WordB :: One CDigit :: r') prev s = Some n ->
  is_word_opt prev = false /\ is_word_opt (head s) = true.
Proof.
  cbn [match_here]. unfold at_boundary.
  destruct s as [|x t]; [destruct (xorb _ _); discriminate|].
  cbn [accepts head]. destruct (is_digit x) eqn:Hd.
  - simpl. rewrite (digit_is_word _ Hd).
    destruct (is_word_opt prev); simpl; [discriminate|auto].
  - destruct (xorb _ _); discriminate.
Qed.

Lemma bounded_end r prev s n :
  r = pat_ten \/ r = pat_seven ->
  match_here r prev s = Some n -> is_word_opt (s !! n) = false.
Proof.
  intros [->| ->] H.
  - destruct ten_shape as [r1 E]. rewrite E in H.
    eapply match_ends_with_digit in H as (_ & _ & Hn); eauto.
  - destruct seven_shape as [r1 E]. rewrite E in H.
    eapply match_ends_with_digit in H as (_ & _ & Hn); eauto.
Qed.

Lemma paren_start prev s n :
  match_here pat_paren prev s = Some n -> is_word_opt (head s) = false.
Proof.
  unfold pat_paren. cbn [app match_here].
  destruct s as [|x t]; [discriminate|].
  cbn [accepts head]. destruct (Ascii.eqb_spec "(" x) as [<-|]; [|discriminate].
  reflexivity.
Qed.

Lemma paren_ctx_free prev prev' s :
  match_here pat_paren prev s = match_here pat_paren prev' s.
Proof. reflexivity. Qed.

Lemma pattern_start r prev s n :
  In r patterns -> match_here r prev s = Some n ->
  is_word_opt (head s) = false \/ is_word_opt prev = false.
Proof.
  intros [<-|[<-|[<-|[]]]] H.
  - left. eapply paren_start, H.
  - right. eapply bounded_start, H.
  - right. eapply bounded_start, H.
Qed.

End Patterns.

(** * Redaction *)

Section Redaction.

Implicit Types (s : text).

Lemma redact_text_unfold s :
  redact_text s
  = re_sub pat_seven REDACTED (re_sub pat_ten REDACTED (re_sub pat_paren REDACTED s)).
Proof. reflexivity. Qed.

Local Ltac pattern_facts :=
  first
    [ eapply match_nonempty; simpl; eauto; fail
    | eapply match_last; simpl; eauto; fail
    | eapply pattern_start; simpl; eauto; fail
    | apply repl_not_consumed; simpl; eauto; fail
    | exact det_paren | exact det_ten | exact det_seven ].

Lemma rematch_free r s :
  In r patterns -> has_match r None (re_sub r REDACTED s) = false.
Proof.
  intros Hr. unfold re_sub.
  apply sub_no_rematch with (q := r); try reflexivity.
  - intros prev t n. apply match_nonempty, Hr.
  - destruct Hr as [<-|[<-|[<-|[]]]]; pattern_facts.
  - apply repl_not_consumed, Hr.
  - intros prev t n. apply match_last, Hr.
  - intros prev t n. apply pattern_start, Hr.
  - destruct Hr as [<-|[<-|[<-|[]]]].
    + left. apply paren_ctx_free.
    + right. split; intros prev t n H.
      * eapply bounded_start, H.
      * eapply bounded_end; [left; reflexivity|exact H].
    + right. split; intros prev t n H.
      * eapply bounded_start, H.
      * eapply bounded_end; [right; reflexivity|exact H].
Qed.

(** Replacing the matches of a later expression brings back no match of an
    earlier one. *)
Lemma earlier_stays_clean p q s :
  (q = pat_paren /\ (p = pat_ten \/ p = pat_seven)) \/ (q = pat_ten /\ p = pat_seven) ->
  has_match q None s = false ->
  has_match q None (re_sub p REDACTED s) = false.
Proof.
  intros Hpq Hclean.
  destruct (has_match q None (re_sub p REDACTED s)) eqn:H; [|reflexivity].
  rewrite <- Hclean. symmetry. revert H. unfold re_sub.
  assert (In p patterns) as Hp by (simpl; intuition).
  assert (In q patterns) as Hq by (simpl; intuition).
  apply sub_no_new_match.
  - intros prev t n. apply match_nonempty, Hp.
  - destruct Hpq as [[-> _]|[-> _]]; pattern_facts.
  - apply repl_not_consumed, Hq.
  - intros prev t n. apply match_last, Hq.
  - intros prev t n. apply pattern_start, Hp.
  - destruct Hpq as [[-> _]|[-> ->]].
    + left. apply paren_ctx_free.
    + right. split; intros prev t n E.
      * eapply bounded_start, E.
      * eapply bounded_end; [right; reflexivity|exact E].
Qed.

Lemma redact_text_clean s r :
  In r patterns -> has_match r None (redact_text s) = false.
Proof.
  rewrite redact_text_unfold.
  intros [<-|[<-|[<-|[]]]].
  - apply earlier_stays_clean; [auto|].
    apply earlier_stays_clean; [auto|].
    apply rematch_free. simpl; auto.
  - apply earlier_stays_clean; [auto|].
    apply rematch_free. simpl; auto.
  - apply rematch_free. simpl; auto.
Qed.

Lemma re_sub_no_match r s :
  has_match r None s = false -> re_sub r REDACTED s = s.
Proof. apply sub_no_match. Qed.

Lemma redact_text_no_match s :
  (forall r, In r patterns -> has_match r None s = false) -> redact_text s = s.
Proof.
  intros H. rewrite redact_text_unfold.
  rewrite (re_sub_no_match pat_paren) by (apply H; simpl; auto).
  rewrite (re_sub_no_match pat_ten) by (apply H; simpl; auto).
  apply re_sub_no_match, H. simpl; auto.
Qed.

Lemma redact_text_idempotent s : redact_text (redact_text s) = redact_text s.
Proof. apply redact_text_no_match. intros r. apply redact_text_clean. Qed.

End Redaction.

(** * The redactor: claims *)

Section RedactorClaims.

(** C9: redacting "User 555-0199 accessed /api/login" gives
    "User [REDACTED] accessed /api/login". *)
Theorem redact_login_scenario :
  redact_phone_numbers "User 555-0199 accessed /api/login"
  = "User [REDACTED] accessed /api/login".
Proof. reflexivity. Qed.

(** C2: redaction is idempotent on every string, where redaction applies
    the three expressions in order, each to the output of the previous. *)
Theorem redact_idempotent :
  (forall s : string,
     redact_phone_numbers (redact_phone_numbers s) = redact_phone_numbers s) /\
  (forall s : string,
     redact_phone_numbers s
     = string_of_list_ascii
         (re_sub pat_seven REDACTED
            (re_sub pat_ten REDACTED
               (re_sub pat_paren REDACTED (list_ascii_of_string s))))).
Proof.
  split; intros s; [|reflexivity].
  unfold redact_phone_numbers.
  rewrite list_ascii_of_string_of_list_ascii, redact_text_idempotent.
  reflexivity.
Qed.

(** C5: a string in which none of the phone expressions matches is
    returned unchanged. *)
Theorem redact_preserves_non_matching (s : string) :
  phone_like s = false -> redact_phone_numbers s = s.
Proof.
  intros H. unfold redact_phone_numbers.
  rewrite redact_text_no_match; [apply string_of_list_ascii_of_string|].
  intros r Hr. unfold phone_like in H.
  destruct (has_match r None (list_ascii_of_string s)) eqn:E; [|reflexivity].
  rewrite <- H. symmetry. apply existsb_exists. exists r. split; assumption.
Qed.

Lemma redact_preserves_non_matching_witness :
  phone_like "Order #12345 costs $99.99 at /api/login" = false /\
  redact_phone_numbers "Order #12345 costs $99.99 at /api/login"
  = "Order #12345 costs $99.99 at /api/login".
Proof.
  split; [reflexivity|].
  apply (redact_preserves_non_matching "Order #12345 costs $99.99 at /api/login").
  reflexivity.
Defined.

End RedactorClaims.

(** * The worker: storage and batches *)

Section WorkerClaims.

Variable json_loads : string -> json + string.
Variable int_of_str : string -> option Z.
Variable table_name : option string.
Variable isoformat : nat -> string.
Variable put_item_raises : Worker.World -> Worker.Item -> bool.

Local Abbreviation put_item := (Worker.put_item put_item_raises).
Local Abbreviation store_processed_log :=
  (Worker.store_processed_log table_name isoformat put_item_raises).
Local Abbreviation process_message :=
  (Worker.process_message table_name isoformat put_item_raises).
Local Abbreviation handle_record :=
  (Worker.handle_record json_loads int_of_str table_name isoformat put_item_raises).
Local Abbreviation lambda_handler :=
  (Worker.lambda_handler json_loads int_of_str table_name isoformat put_item_raises).

Implicit Types (w : Worker.World) (item : Worker.Item) (r : Worker.SQSRecord).

Lemma put_item_returns w item w' :
  put_item w item = (w', Returns tt) ->
  exists t l,
    Worker.tenant_id item = JStr t /\ Worker.log_id item = JStr l /\
    w' = {| Worker.items := <[(t, l) := item]> (Worker.items w);
            Worker.writes := item :: Worker.writes w;
            Worker.clock := S (Worker.clock w) |}.
Proof.
  unfold Worker.put_item. intros H.
  destruct (Worker.tenant_id item) as [| | | |t| |]; try discriminate.
  destruct (Worker.log_id item) as [| | | |l| |]; try discriminate.
  destruct (put_item_raises w item); [discriminate|].
  injection H as <-. eauto.
Qed.

Lemma put_item_raises_keeps w item w' e :
  put_item w item = (w', Raises e) -> w' = Worker.tick w.
Proof.
  unfold Worker.put_item. intros H.
  destruct (Worker.tenant_id item) as [| | | |t| |];
    try (injection H as <- _; reflexivity).
  destruct (Worker.log_id item) as [| | | |l| |];
    try (injection H as <- _; reflexivity).
  destruct (put_item_raises w item); [|discriminate].
  injection H as <- _. reflexivity.
Qed.

(** A successful store wrote exactly the item built from the message. *)
Lemma store_returns_true w message modified_data attempt worker_id w' :
  store_processed_log w message modified_data attempt worker_id = (w', true) ->
  exists t l,
    message !! "tenant_id" = Some (JStr t) /\ message !! "log_id" = Some (JStr l) /\
    is_Some (message !! "normalized_text") /\
    let item :=
      item_for message modified_data attempt worker_id (isoformat (Worker.clock w)) in
    w' = {| Worker.items := <[(t, l) := item]> (Worker.items w);
            Worker.writes := item :: Worker.writes w;
            Worker.clock := S (S (Worker.clock w)) |}.
Proof.
  unfold Worker.store_processed_log. intros H.
  destruct (Worker.get_dynamodb_table table_name); [|discriminate].
  destruct (message !! "tenant_id") as [tenant|] eqn:Et; [|discriminate].
  destruct (message !! "log_id") as [log|] eqn:El; [|discriminate].
  destruct (message !! "source") as [src|] eqn:Es; [|discriminate].
  destruct (message !! "normalized_text") as [text|] eqn:En; [|discriminate].
  destruct (message !! "received_at") as [received|] eqn:Er; [|discriminate].
  destruct (message !! "request_id") as [request|] eqn:Eq; [|discriminate].
  match type of H with context [Worker.put_item _ ?w1 ?it] =>
    destruct (Worker.put_item put_item_raises w1 it) as [w2 [[]|e]] eqn:Ep end;
    [|discriminate].
  injection H as <-.
  apply put_item_returns in Ep as (t & l & Ht & Hl & ->). simpl in Ht, Hl. subst.
  exists t, l. split; [reflexivity|]. split; [reflexivity|]. split; [eauto|].
  unfold item_for, dict_get. rewrite Et, El, Es, En, Er, Eq. reflexivity.
Qed.

(** A failed store leaves the table as it was. *)
Lemma store_returns_false w message modified_data attempt worker_id w' :
  store_processed_log w message modified_data attempt worker_id = (w', false) ->
  Worker.items w' = Worker.items w /\ Worker.writes w' = Worker.writes w.
Proof.
  unfold Worker.store_processed_log. intros H.
  destruct (Worker.get_dynamodb_table table_name);
    [|injection H as <-; auto].
  destruct (message !! "tenant_id") as [tenant|]; [|injection H as <-; auto].
  destruct (message !! "log_id") as [log|]; [|injection H as <-; auto].
  destruct (message !! "source") as [src|]; [|injection H as <-; auto].
  destruct (message !! "normalized_text") as [text|]; [|injection H as <-; auto].
  destruct (message !! "received_at") as [received|]; [|injection H as <-; auto].
  destruct (message !! "request_id") as [request|]; [|injection H as <-; auto].
  match type of H with context [Worker.put_item _ ?w1 ?it] =>
    destruct (Worker.put_item put_item_raises w1 it) as [w2 [[]|e]] eqn:Ep end;
    [discriminate|].
  injection H as <-. apply put_item_raises_keeps in Ep as ->. auto.
Qed.

Lemma process_message_true w message_body receipt_handle worker_id attempt w' :
  process_message w message_body receipt_handle worker_id attempt = (w', Returns true) ->
  exists d text,
    message_body = JObj d /\ d !! "normalized_text" = Some (JStr text) /\
    store_processed_log w d (redact_phone_numbers text) attempt worker_id = (w', true).
Proof.
  unfold Worker.process_message. intros H.
  destruct message_body as [| | | | | |d]; try discriminate.
  unfold dict_get in H.
  destruct (d !! "normalized_text") as [[| | | |text| |]|] eqn:En;
    simpl in H; try discriminate.
  destruct (Worker.store_processed_log table_name isoformat put_item_raises w d
              (redact_phone_numbers text) attempt worker_id) as [w1 [|]] eqn:Es;
    [|discriminate].
  injection H as <-. eauto.
Qed.

Lemma process_message_not_true w message_body receipt_handle worker_id attempt w' o :
  process_message w message_body receipt_handle worker_id attempt = (w', o) ->
  o <> Returns true ->
  Worker.items w' = Worker.items w /\ Worker.writes w' = Worker.writes w.
Proof.
  unfold Worker.process_message. intros H Ho.
  destruct message_body as [| | | | | |d]; try (injection H as <- _; auto).
  destruct (Worker.simulate_heavy_processing (dict_get d "normalized_text"));
    [|injection H as <- _; auto].
  destruct (Worker.redact_value (dict_get d "normalized_text")) as [md|];
    [|injection H as <- _; auto].
  destruct (Worker.store_processed_log table_name isoformat put_item_raises w d
              md attempt worker_id) as [w1 [|]] eqn:Es.
  - injection H as <- <-. contradiction.
  - injection H as <- _. eapply store_returns_false, Es.
Qed.

(** C3: two writes with the same key (T, L) leave one record under (T, L),
    the second one in full; the table is what the second write alone would
    have left. *)
Theorem store_last_writer_wins
    w w1 w2 m1 m2 md1 md2 (a1 a2 : Z) (wid1 wid2 T L : string) :
  m1 !! "tenant_id" = Some (JStr T) -> m1 !! "log_id" = Some (JStr L) ->
  m2 !! "tenant_id" = Some (JStr T) -> m2 !! "log_id" = Some (JStr L) ->
  store_processed_log w m1 md1 a1 wid1 = (w1, true) ->
  store_processed_log w1 m2 md2 a2 wid2 = (w2, true) ->
  let second := item_for m2 md2 a2 wid2 (isoformat (Worker.clock w1)) in
  (Worker.items w2 !! (T, L) = Some second) /\
  (Worker.modified_data second = md2) /\
  (Worker.items w2 = <[(T, L) := second]> (Worker.items w)) /\
  (size (Worker.items w2) = size (Worker.items w1)) /\
  (length (filter (fun kv => kv.1 = (T, L)) (map_to_list (Worker.items w2))) = 1).
Proof.
  intros Ht1 Hl1 Ht2 Hl2 H1 H2 second.
  apply store_returns_true in H1 as (t1 & l1 & Ht1' & Hl1' & _ & ->).
  apply store_returns_true in H2 as (t2 & l2 & Ht2' & Hl2' & _ & ->).
  rewrite Ht1 in Ht1'. rewrite Hl1 in Hl1'. rewrite Ht2 in Ht2'. rewrite Hl2 in Hl2'.
  injection Ht1' as <-. injection Hl1' as <-. injection Ht2' as <-. injection Hl2' as <-.
  cbn [Worker.items Worker.clock]. fold second.
  split; [apply lookup_insert_eq|]. split; [reflexivity|].
  split; [apply insert_insert_eq|]. split.
  - rewrite !map_size_insert, lookup_insert_eq. reflexivity.
  - rewrite insert_insert_eq, <- insert_delete_eq.
    rewrite map_to_list_insert by apply lookup_delete_eq.
    rewrite filter_cons_True by reflexivity. simpl. f_equal.
    apply length_zero_iff_nil, elem_of_nil_inv.
    intros [k v] Hin. apply list_elem_of_filter in Hin as [Hk Hin].
    simpl in Hk. subst k.
    apply elem_of_map_to_list in Hin. rewrite lookup_delete_eq in Hin. discriminate.
Qed.

(** C10: a record the worker persists holds the message's normalized_text
    unchanged as original_text, next to the redacted modified_data. *)
Theorem persisted_record_keeps_original
    w w' message_body (receipt_handle worker_id : string) (attempt : Z) :
  process_message w message_body receipt_handle worker_id attempt = (w', Returns true) ->
  exists d text t l item,
    message_body = JObj d /\ d !! "normalized_text" = Some (JStr text) /\
    Worker.writes w' = item :: Worker.writes w /\
    Worker.items w' !! (t, l) = Some item /\
    Worker.tenant_id item = JStr t /\ Worker.log_id item = JStr l /\
    Worker.original_text item = JStr text /\
    Worker.modified_data item = redact_phone_numbers text.
Proof.
  intros H.
  apply process_message_true in H as (d & text & -> & En & H).
  apply store_returns_true in H as (t & l & Ht & Hl & _ & ->).
  exists d, text, t, l. eexists.
  split; [reflexivity|]. split; [exact En|]. split; [reflexivity|].
  split; [apply lookup_insert_eq|].
  unfold item_for, dict_get. simpl. rewrite Ht, Hl, En. auto.
Qed.

(** ** Batches *)

Lemma handle_record_true worker_id w r w' :
  handle_record worker_id w r = (w', true) ->
  exists item, Worker.writes w' = item :: Worker.writes w.
Proof.
  unfold Worker.handle_record. intros H.
  destruct (json_loads (Worker.body r)) as [message_body|]; [|discriminate].
  destruct (match Worker.ApproximateReceiveCount r with
            | Some count => int_of_str count
            | None => Some 1%Z
            end) as [attempt|]; [|discriminate].
  destruct (Worker.process_message table_name isoformat put_item_raises w
              message_body (Worker.receiptHandle r) worker_id attempt)
    as [w1 [success|e]] eqn:Ep; [|discriminate].
  injection H as <- ->.
  apply process_message_true in Ep as (d & text & _ & _ & Es).
  apply store_returns_true in Es as (t & l & _ & _ & _ & ->).
  eauto.
Qed.

Lemma handle_record_false worker_id w r w' :
  handle_record worker_id w r = (w', false) ->
  Worker.items w' = Worker.items w /\ Worker.writes w' = Worker.writes w.
Proof.
  unfold Worker.handle_record. intros H.
  destruct (json_loads (Worker.body r)) as [message_body|];
    [|injection H as <-; auto].
  destruct (match Worker.ApproximateReceiveCount r with
            | Some count => int_of_str count
            | None => Some 1%Z
            end) as [attempt|]; [|injection H as <-; auto].
  destruct (Worker.process_message table_name isoformat put_item_raises w
              message_body (Worker.receiptHandle r) worker_id attempt)
    as [w1 [success|e]] eqn:Ep.
  - injection H as <- ->. eapply process_message_not_true; [exact Ep|discriminate].
  - injection H as <-. eapply process_message_not_true; [exact Ep|discriminate].
Qed.

Lemma handle_record_undecodable worker_id w r e :
  json_loads (Worker.body r) = inr e -> handle_record worker_id w r = (w, false).
Proof. unfold Worker.handle_record. intros ->. reflexivity. Qed.

(** ** A record's outcome, read off its content *)

Local Abbreviation persisted :=
  (persisted_record json_loads int_of_str table_name isoformat put_item_raises).

Lemma store_true_inv w message modified_data attempt worker_id w' :
  store_processed_log w message modified_data attempt worker_id = (w', true) ->
  (exists name, table_name = Some name /\ String.eqb name "" = false) /\
  is_Some (message !! "source") /\ is_Some (message !! "received_at") /\
  is_Some (message !! "request_id") /\
  put_item_raises (Worker.tick w)
    (item_for message modified_data attempt worker_id (isoformat (Worker.clock w)))
  = false.
Proof.
  unfold Worker.store_processed_log, Worker.get_dynamodb_table. intros H.
  destruct table_name as [name|]; [|discriminate].
  destruct (String.eqb name "") eqn:Ename; [discriminate|].
  destruct (message !! "tenant_id") as [tenant|] eqn:Et; [|discriminate].
  destruct (message !! "log_id") as [log|] eqn:El; [|discriminate].
  destruct (message !! "source") as [src|] eqn:Es; [|discriminate].
  destruct (message !! "normalized_text") as [text|] eqn:En; [|discriminate].
  destruct (message !! "received_at") as [received|] eqn:Er; [|discriminate].
  destruct (message !! "request_id") as [request|] eqn:Eq; [|discriminate].
  unfold Worker.put_item in H. cbn [Worker.tenant_id Worker.log_id] in H.
  destruct tenant as [| | | |t| |]; try discriminate.
  destruct log as [| | | |l| |]; try discriminate.
  split; [eauto|]. split; [eauto|]. split; [eauto|]. split; [eauto|].
  unfold item_for, dict_get. rewrite Et, El, Es, En, Er, Eq. cbn [from_option id].
  match type of H with context [put_item_raises ?a ?b] =>
    destruct (put_item_raises a b) eqn:Ep end; [discriminate|reflexivity].
Qed.

Lemma store_succeeds w message modified_data attempt worker_id name t l :
  table_name = Some name -> String.eqb name "" = false ->
  message !! "tenant_id" = Some (JStr t) -> message !! "log_id" = Some (JStr l) ->
  is_Some (message !! "source") -> is_Some (message !! "normalized_text") ->
  is_Some (message !! "received_at") -> is_Some (message !! "request_id") ->
  let item :=
    item_for message modified_data attempt worker_id (isoformat (Worker.clock w)) in
  put_item_raises (Worker.tick w) item = false ->
  store_processed_log w message modified_data attempt worker_id
  = ({| Worker.items := <[(t, l) := item]> (Worker.items w);
        Worker.writes := item :: Worker.writes w;
        Worker.clock := S (S (Worker.clock w)) |}, true).
Proof.
  intros Htab Hname Et El [src Es] [text En] [received Er] [request Eq] item Hp.
  subst item. revert Hp.
  unfold Worker.store_processed_log, Worker.get_dynamodb_table, item_for, dict_get.
  rewrite Htab, Hname, Et, El, Es, En, Er, Eq. cbn [from_option id]. intros Hp.
  unfold Worker.put_item. cbn [Worker.tenant_id Worker.log_id].
  rewrite Hp. reflexivity.
Qed.

(** An item whose processing succeeds is handled by writing its record. *)
Lemma persisted_handled worker_id w r key item :
  persisted worker_id w r = Some (key, item) ->
  handle_record worker_id w r
  = ({| Worker.items := <[key := item]> (Worker.items w);
        Worker.writes := item :: Worker.writes w;
        Worker.clock := S (S (Worker.clock w)) |}, true).
Proof.
  unfold persisted_record, record_of, Worker.handle_record. intros H.
  destruct table_name as [name|] eqn:Htab; [|discriminate].
  destruct (String.eqb name "") eqn:Hname; [discriminate|].
  destruct (json_loads (Worker.body r)) as [[| | | | | |d]|]; try discriminate.
  destruct (match Worker.ApproximateReceiveCount r with
            | Some count => int_of_str count
            | None => Some 1%Z
            end) as [attempt|]; [|discriminate].
  destruct (d !! "tenant_id") as [[| | | |t| |]|] eqn:Et; try discriminate.
  destruct (d !! "log_id") as [[| | | |l| |]|] eqn:El; try discriminate.
  destruct (d !! "normalized_text") as [[| | | |text| |]|] eqn:En; try discriminate.
  destruct (d !! "source") as [src|] eqn:Es; [|discriminate].
  destruct (d !! "received_at") as [received|] eqn:Er; [|discriminate].
  destruct (d !! "request_id") as [request|] eqn:Eq; [|discriminate].
  match type of H with context [put_item_raises ?a ?b] =>
    destruct (put_item_raises a b) eqn:Ep end; [discriminate|].
  injection H as <- <-.
  unfold Worker.process_message, dict_get. rewrite En.
  cbn [from_option id Worker.simulate_heavy_processing Worker.redact_value].
  assert (Hs := store_succeeds w d (redact_phone_numbers text) attempt worker_id
                  name t l Htab Hname Et El ltac:(eauto) ltac:(eauto) ltac:(eauto)
                  ltac:(eauto) Ep).
  rewrite Htab in Hs. rewrite Hs. reflexivity.
Qed.

(** An item that is handled without failure is one whose processing
    succeeds. *)
Lemma handled_persisted worker_id w r w' :
  handle_record worker_id w r = (w', true) ->
  is_Some (persisted worker_id w r).
Proof.
  unfold Worker.handle_record, persisted_record, record_of. intros H.
  destruct (json_loads (Worker.body r)) as [message_body|]; [|discriminate].
  destruct (match Worker.ApproximateReceiveCount r with
            | Some count => int_of_str count
            | None => Some 1%Z
            end) as [attempt|]; [|discriminate].
  destruct (Worker.process_message table_name isoformat put_item_raises w
              message_body (Worker.receiptHandle r) worker_id attempt)
    as [w1 [success|e]] eqn:Ep; [|discriminate].
  injection H as <- ->.
  apply process_message_true in Ep as (d & text & -> & En & Es).
  pose proof (store_true_inv _ _ _ _ _ _ Es)
    as ((name & Htab & Hname) & [src Hsrc] & [received Hrec] & [request Hreq] & Hp).
  apply store_returns_true in Es as (t & l & Ht & Hl & _ & _).
  rewrite Htab, Hname, Ht, Hl, En, Hsrc, Hrec, Hreq, Hp. eauto.
Qed.

Lemma handle_record_outcome worker_id w r :
  (handle_record worker_id w r).2 = is_processed (persisted worker_id) (w, r) /\
  Worker.items (handle_record worker_id w r).1
  = match persisted worker_id w r with
    | Some (key, item) => <[key := item]> (Worker.items w)
    | None => Worker.items w
    end /\
  Worker.writes (handle_record worker_id w r).1
  = match persisted worker_id w r with
    | Some (_, item) => item :: Worker.writes w
    | None => Worker.writes w
    end.
Proof.
  unfold is_processed. cbn [fst snd].
  destruct (persisted worker_id w r) as [[key item]|] eqn:E.
  - rewrite (persisted_handled _ _ _ _ _ E). auto.
  - destruct (handle_record worker_id w r) as [w' [|]] eqn:Eh; cbn [fst snd].
    + apply handled_persisted in Eh as [x Hx]. congruence.
    + split; [reflexivity|]. eapply handle_record_false, Eh.
Qed.

(** ** Tables written record by record *)

Lemma write_all_app l1 l2 table :
  write_all (l1 ++ l2) table = write_all l2 (write_all l1 table).
Proof. apply fold_left_app. Qed.

Lemma write_all_keeps records :
  forall table key item,
    table !! key = Some item -> ~ In key (map fst records) ->
    write_all records table !! key = Some item.
Proof.
  induction records as [|[k v] records IH]; intros table key item Hl Hn; [exact Hl|].
  cbn [write_all fold_left fst snd]. apply IH.
  - rewrite lookup_insert_ne; [exact Hl|].
    intros ->. apply Hn. left. reflexivity.
  - intros Hin. apply Hn. right. exact Hin.
Qed.

Lemma write_all_size records :
  forall table,
    List.NoDup (map fst records) ->
    (forall key, In key (map fst records) -> table !! key = None) ->
    size (write_all records table) = size table + length records.
Proof.
  induction records as [|[k v] records IH]; intros table Hd Hf;
    [simpl; lia|].
  cbn [map fst] in Hd. apply List.NoDup_cons_iff in Hd as [Hk Hd].
  cbn [write_all fold_left fst snd]. fold (write_all records (<[k := v]> table)).
  rewrite IH.
  - rewrite map_size_insert_None by (apply Hf; left; reflexivity).
    cbn [length]. lia.
  - exact Hd.
  - intros key Hin. rewrite lookup_insert_ne.
    + apply Hf. right. exact Hin.
    + intros ->. contradiction.
Qed.

Section Batch.

Variable context : option string.

Local Abbreviation step := (handle_record (default "local-worker" context)).

Local Abbreviation failed := (failed_ids step).
Local Abbreviation final := (end_world step).

Lemma lambda_handler_fold :
  forall records w failures,
    fold_left
      (fun '(w, batch_item_failures) record =>
         let '(w', success) := step w record in
         (w', if success then batch_item_failures
              else batch_item_failures ++ [Worker.messageId record]))
      records (w, failures)
    = (final w records, failures ++ failed (batch_trace step w records)).
Proof.
  unfold failed_ids, end_world.
  induction records as [|r records IH]; intros w failures.
  - simpl. rewrite app_nil_r. reflexivity.
  - cbn [fold_left batch_trace List.filter map]. cbn [fst snd].
    destruct (step w r) as [w1 [|]] eqn:E; cbn [fst snd negb]; rewrite IH.
    + reflexivity.
    + cbn [map]. rewrite <- app_assoc. reflexivity.
Qed.

Lemma lambda_handler_trace w records :
  lambda_handler w context records
  = (final w records, failed (batch_trace step w records)).
Proof. unfold Worker.lambda_handler. apply lambda_handler_fold. Qed.

Lemma writes_grow :
  forall records w, exists l,
    Worker.writes (final w records) = l ++ Worker.writes w.
Proof.
  unfold end_world.
  induction records as [|r records IH]; intros w; [exists []; reflexivity|].
  cbn [fold_left]. destruct (IH (step w r).1) as [l Hl]. rewrite Hl.
  destruct (step w r) as [w1 [|]] eqn:E; cbn [fst].
  - apply handle_record_true in E as [item ->]. exists (l ++ [item]).
    rewrite <- app_assoc. reflexivity.
  - apply handle_record_false in E as [_ ->]. eauto.
Qed.

Lemma writes_count :
  forall records w,
    length (Worker.writes (final w records))
    + length (failed (batch_trace step w records))
    = length (Worker.writes w) + length records.
Proof.
  unfold failed_ids, end_world.
  induction records as [|r records IH]; intros w; [simpl; lia|].
  cbn [fold_left batch_trace List.filter length]. cbn [fst snd].
  specialize (IH (step w r).1).
  destruct (step w r) as [w1 [|]] eqn:E; cbn [fst snd negb] in *.
  - apply handle_record_true in E as [item E]. rewrite E in IH. simpl in IH. lia.
  - apply handle_record_false in E as [_ E]. rewrite E in IH.
    cbn [map length]. lia.
Qed.

Lemma failed_in_trace :
  forall records w wi r,
    In (wi, r) (batch_trace step w records) -> (step wi r).2 = false ->
    In (Worker.messageId r) (failed (batch_trace step w records)).
Proof.
  intros records w wi r Hin Hf. unfold failed_ids.
  apply (in_map (fun p : Worker.World * Worker.SQSRecord => Worker.messageId p.2)
           _ (wi, r)).
  apply filter_In. split; [exact Hin|]. simpl. rewrite Hf. reflexivity.
Qed.

Lemma all_succeed_no_failure :
  forall records w,
    (forall i wi ri, batch_trace step w records !! i = Some (wi, ri) ->
       (step wi ri).2 = true) ->
    failed (batch_trace step w records) = [].
Proof.
  unfold failed_ids.
  induction records as [|r records IH]; intros w H; [reflexivity|].
  cbn [batch_trace List.filter]. cbn [fst snd].
  rewrite (H 0 w r eq_refl). cbn [negb].
  apply IH. intros i wi ri Hi. apply (H (S i)). exact Hi.
Qed.

Lemma only_one_fails :
  forall records w k rk,
    records !! k = Some rk ->
    (forall i wi ri, batch_trace step w records !! i = Some (wi, ri) ->
       (step wi ri).2 = negb (i =? k)%nat) ->
    failed (batch_trace step w records) = [Worker.messageId rk].
Proof.
  unfold failed_ids.
  induction records as [|r records IH]; intros w k rk Hk H; [discriminate|].
  cbn [batch_trace List.filter]. cbn [fst snd].
  pose proof (H 0 w r eq_refl) as H0.
  destruct k as [|k]; simpl in H0; rewrite H0; cbn [negb map].
  - injection Hk as ->. f_equal.
    apply all_succeed_no_failure. intros i wi ri Hi. apply (H (S i)) in Hi. exact Hi.
  - apply (IH _ k); [exact Hk|].
    intros i wi ri Hi. apply (H (S i)) in Hi. exact Hi.
Qed.

Local Abbreviation outcome_of := (persisted (default "local-worker" context)).

Lemma report_unprocessed trace :
  failed trace = unprocessed_ids outcome_of trace.
Proof.
  unfold failed_ids, unprocessed_ids. f_equal.
  induction trace as [|[wi r] trace IH]; [reflexivity|].
  cbn [List.filter fst snd].
  rewrite (proj1 (handle_record_outcome _ wi r)), IH. reflexivity.
Qed.

Lemma batch_table :
  forall records w,
    let written := written_records outcome_of (batch_trace step w records) in
    Worker.items (final w records) = write_all written (Worker.items w) /\
    Worker.writes (final w records) = rev (map snd written) ++ Worker.writes w.
Proof.
  unfold end_world, written_records.
  induction records as [|r records IH]; intros w; [split; reflexivity|].
  cbn [batch_trace fold_left omap list_omap fst snd].
  destruct (IH (step w r).1) as [Hi Hw]. cbn zeta in Hi, Hw. rewrite Hi, Hw.
  destruct (handle_record_outcome (default "local-worker" context) w r)
    as (_ & Ei & Ew).
  rewrite Ei, Ew.
  destruct (outcome_of w r) as [[key item]|]; [|split; reflexivity].
  cbn [map rev snd fst write_all fold_left]. rewrite <- app_assoc. split; reflexivity.
Qed.

Lemma written_count trace :
  length (written_records outcome_of trace) + length (unprocessed_ids outcome_of trace)
  = length trace.
Proof.
  unfold written_records, unprocessed_ids, is_processed.
  induction trace as [|[wi r] trace IH]; [reflexivity|].
  cbn [omap list_omap List.filter fst snd].
  destruct (outcome_of wi r); cbn [negb map length] in *; lia.
Qed.

Lemma batch_trace_length records :
  forall w, length (batch_trace step w records) = length records.
Proof.
  induction records as [|r records IH]; intros w; [reflexivity|].
  cbn [batch_trace length]. rewrite IH. reflexivity.
Qed.

(** C1: the batch processor reports exactly the identifiers of the items
    whose processing failed, in delivery order, where an item is processed
    when its body decodes to a message with the six fields, its text and
    key are strings, the table is configured and the store accepts the
    write; an item whose body does not decode is among the failures and
    changes nothing.  Every item is handled as it would be alone: a
    processed item's record is written under its key, a failed one leaves
    the table as it was.  After the batch the table is the initial one with
    the records of the processed items written in delivery order, so each
    such record is in the table unless a later item rewrote its key.  When
    exactly item k of N fails, the report is [k] alone, N-1 writes have
    happened, and the table holds N-1 more records when their keys are
    distinct and new. *)
Theorem batch_partial_failures w (Records : list Worker.SQSRecord) :
  let trace := batch_trace step w Records in
  let result := lambda_handler w context Records in
  let written := written_records outcome_of trace in
  (result.2 = unprocessed_ids outcome_of trace) /\
  (forall wi r,
     (step wi r).2 = is_processed outcome_of (wi, r) /\
     Worker.items (step wi r).1
     = match outcome_of wi r with
       | Some (key, item) => <[key := item]> (Worker.items wi)
       | None => Worker.items wi
       end /\
     Worker.writes (step wi r).1
     = match outcome_of wi r with
       | Some (_, item) => item :: Worker.writes wi
       | None => Worker.writes wi
       end) /\
  (Worker.items result.1 = write_all written (Worker.items w) /\
   Worker.writes result.1 = rev (map snd written) ++ Worker.writes w) /\
  (forall wi r e, In (wi, r) trace -> json_loads (Worker.body r) = inr e ->
     outcome_of wi r = None /\
     In (Worker.messageId r) result.2 /\ (step wi r).1 = wi) /\
  (forall before wi r after key item,
     trace = before ++ (wi, r) :: after -> outcome_of wi r = Some (key, item) ->
     In item (Worker.writes result.1) /\
     ((forall wj rj, In (wj, rj) after -> fst <$> outcome_of wj rj <> Some key) ->
      Worker.items result.1 !! key = Some item)) /\
  (forall k rk, Records !! k = Some rk ->
     (forall i wi ri, trace !! i = Some (wi, ri) ->
        is_processed outcome_of (wi, ri) = negb (i =? k)%nat) ->
     result.2 = [Worker.messageId rk] /\
     length (Worker.writes result.1) = length (Worker.writes w) + (length Records - 1) /\
     (List.NoDup (map fst written) ->
      (forall key, In key (map fst written) -> Worker.items w !! key = None) ->
      size (Worker.items result.1) = size (Worker.items w) + (length Records - 1))).
Proof.
  intros trace result written. subst trace result written.
  rewrite lambda_handler_trace. cbn [fst snd].
  destruct (batch_table Records w) as [Hitems Hwrites]. cbn zeta in Hitems, Hwrites.
  split; [apply report_unprocessed|]. split; [intros wi r; apply handle_record_outcome|].
  split; [split; assumption|]. split; [|split].
  - intros wi r e Hin He.
    pose proof (handle_record_undecodable (default "local-worker" context) wi r e He)
      as Hu.
    rewrite Hu. split; [|split; [|reflexivity]].
    + destruct (outcome_of wi r) as [[key item]|] eqn:E; [|reflexivity].
      apply persisted_handled in E. rewrite Hu in E. discriminate.
    + eapply failed_in_trace; [exact Hin|]. rewrite Hu. reflexivity.
  - intros before wi r after key item Ht Ho.
    rewrite Hitems, Hwrites, Ht. unfold written_records.
    rewrite omap_app. cbn [omap list_omap fst snd]. rewrite Ho.
    split.
    + apply in_or_app. left. apply -> in_rev.
      rewrite List.map_app. apply in_or_app. right. left. reflexivity.
    + intros Hlater. rewrite write_all_app.
      cbn [write_all fold_left fst snd].
      apply write_all_keeps; [apply lookup_insert_eq|].
      intros Hin. apply in_map_iff in Hin as ([key' item'] & Hk & Hin).
      cbn [fst] in Hk. subst key'.
      apply list_elem_of_In, list_elem_of_omap in Hin as ([wj rj] & Hj & Hoj).
      apply (Hlater wj rj); [apply list_elem_of_In; exact Hj|].
      cbn [fst snd] in Hoj. rewrite Hoj. reflexivity.
  - intros k rk Hk H.
    assert (Hone : failed (batch_trace step w Records) = [Worker.messageId rk]).
    { apply (only_one_fails Records w k rk Hk). intros i wi ri Hi.
      rewrite (proj1 (handle_record_outcome _ wi ri)). apply (H i), Hi. }
    pose proof (writes_count Records w) as Hc. rewrite Hone in Hc |- *.
    pose proof (written_count (batch_trace step w Records)) as Hn.
    rewrite <- report_unprocessed, Hone, batch_trace_length in Hn.
    apply lookup_lt_Some in Hk. cbn [length] in Hc, Hn.
    split; [reflexivity|]. split; [lia|].
    intros Hd Hf. rewrite Hitems, write_all_size by assumption. lia.
Qed.

End Batch.

End WorkerClaims.

(** * The ingest API *)

Section ApiClaims.

Variable json_loads : string -> json + string.
Variable json_dumps : list (string * json) -> string.
Variable queue_url : option string.
Variable send_message_raises : list Api.SqsMessage -> Api.SqsMessage -> bool.

Local Abbreviation bad_request := (Api.bad_request json_dumps).
Local Abbreviation validate_and_normalize :=
  (Api.validate_and_normalize json_loads json_dumps).
Local Abbreviation publish_to_sqs :=
  (Api.publish_to_sqs json_dumps queue_url send_message_raises).
Local Abbreviation lambda_handler :=
  (Api.lambda_handler json_loads json_dumps queue_url send_message_raises).

Implicit Types (env : Api.Env) (event : Api.Event) (queue : list Api.SqsMessage).

Lemma strip_nonblank b : strip b <> "" -> String.eqb b "" || String.eqb (strip b) "" = false.
Proof.
  intros H. apply orb_false_iff. split; apply String.eqb_neq; [|exact H].
  intros ->. apply H. reflexivity.
Qed.

(** Every error response of the normalizer is a 400, and comes without a
    message. *)
Lemma validation_error_is_400 env event m error_response :
  validate_and_normalize env event = Returns (m, Some error_response) ->
  Api.statusCode error_response = 400%Z /\ m = None.
Proof.
  unfold Api.validate_and_normalize. intros H.
  repeat case_match; simplify_eq; auto.
Qed.

Lemma publish_true queue message queue' :
  publish_to_sqs queue message = (queue', true) ->
  exists sent, queue' = queue ++ [sent].
Proof.
  unfold Api.publish_to_sqs. intros H.
  repeat case_match; simplify_eq; eauto.
Qed.

Lemma publish_false queue message queue' :
  publish_to_sqs queue message = (queue', false) -> queue' = queue.
Proof.
  unfold Api.publish_to_sqs. intros H.
  repeat case_match; simplify_eq; eauto.
Qed.

Lemma route_ingest event :
  Api.http_method event = Some "POST" -> Api.rawPath event = Some "/ingest" ->
  negb (bool_decide (Api.http_method event = Some "POST"))
  || negb (String.eqb (default "" (Api.rawPath event)) "/ingest") = false.
Proof.
  intros -> ->. rewrite bool_decide_eq_true_2 by reflexivity. reflexivity.
Qed.

(** C7: a request that is normalized and enqueued gets 202 with the
    message's log_id and request_id in the body; a validation failure gets
    the normalizer's 400; a publish failure gets 500 and leaves the queue as
    it was; and 202 is returned only after the queue accepted the message. *)
Theorem http_outcome_mapping env queue event :
  (Api.http_method event = Some "POST" -> Api.rawPath event = Some "/ingest" ->
   (forall message queue',
      validate_and_normalize env event = Returns (Some message, None) ->
      publish_to_sqs queue message = (queue', true) ->
      lambda_handler env queue event =
        (queue', Returns
           {| Api.statusCode := 202;
              Api.response_body :=
                json_dumps [("status", JStr "accepted");
                            ("log_id", Api.log_id message);
                            ("request_id", JStr (Api.request_id message))];
              Api.response_headers := [("Content-Type", "application/json")] |})) /\
   (forall m error_response,
      validate_and_normalize env event = Returns (m, Some error_response) ->
      lambda_handler env queue event = (queue, Returns error_response) /\
      Api.statusCode error_response = 400%Z) /\
   (forall message queue',
      validate_and_normalize env event = Returns (Some message, None) ->
      publish_to_sqs queue message = (queue', false) ->
      exists response,
        lambda_handler env queue event = (queue', Returns response) /\
        Api.statusCode response = 500%Z /\ queue' = queue)) /\
  (forall queue' response,
     lambda_handler env queue event = (queue', Returns response) ->
     Api.statusCode response = 202%Z ->
     exists message sent,
       validate_and_normalize env event = Returns (Some message, None) /\
       publish_to_sqs queue message = (queue', true) /\ queue' = queue ++ [sent]).
Proof.
  split.
  - intros Hm Hp. pose proof (route_ingest event Hm Hp) as Hr.
    split; [|split].
    + intros message queue' Hv Hq.
      unfold Api.lambda_handler. rewrite Hr, Hv, Hq. reflexivity.
    + intros m error_response Hv.
      destruct (validation_error_is_400 _ _ _ _ Hv) as [Hs ->].
      unfold Api.lambda_handler. rewrite Hr, Hv. auto.
    + intros message queue' Hv Hq.
      unfold Api.lambda_handler. rewrite Hr, Hv, Hq.
      eexists. split; [reflexivity|]. split; [reflexivity|].
      eapply publish_false, Hq.
  - intros queue' response H Hs. unfold Api.lambda_handler in H.
    destruct (negb (bool_decide (Api.http_method event = Some "POST"))
              || negb (String.eqb (default "" (Api.rawPath event)) "/ingest")).
    { cbv iota in H. injection H as <- <-. discriminate. }
    cbv iota in H.
    destruct (validate_and_normalize env event) as [[m [error_response|]]|e] eqn:Hv;
      cbv iota beta in H.
    + destruct m; injection H as <- <-;
      apply validation_error_is_400 in Hv as [Hv _]; rewrite Hv in Hs; discriminate.
    + destruct m as [message|]; [|discriminate].
      destruct (publish_to_sqs queue message) as [queue1 [|]] eqn:Hq; simpl in H.
      * injection H as <- <-.
        destruct (publish_true _ _ _ Hq) as [sent ->]. eauto.
      * injection H as <- <-. discriminate.
    + discriminate.
Qed.

(** C8, as the code has it: a plain-text request with a non-blank body and a
    non-empty X-Tenant-ID header (looked up case-insensitively) is
    normalized to a message with that tenant, source text_upload and the
    whole body as its text. *)
Theorem plain_text_normalized env event (b content_type tenant : string) :
  Api.body event = Some b -> strip b <> "" ->
  Api.lower_keys (Api.headers event) !! "content-type" = Some content_type ->
  contains "application/json" content_type = false ->
  contains "text/plain" content_type = true ->
  Api.lower_keys (Api.headers event) !! "x-tenant-id" = Some tenant ->
  tenant <> "" ->
  exists message,
    validate_and_normalize env event = Returns (Some message, None) /\
    Api.tenant_id message = JStr tenant /\
    Api.source message = "text_upload" /\
    Api.normalized_text message = JStr b.
Proof.
  intros Hb Hnb Hct Hj Ht Hx Hne.
  unfold Api.validate_and_normalize.
  rewrite Hb, Hct, Hx. cbn [from_option id].
  rewrite (strip_nonblank b Hnb), Hj, Ht.
  apply String.eqb_neq in Hne. rewrite Hne. cbn [truthy].
  eexists. split; [reflexivity|]. auto.
Qed.

(** C6, as the code has it: the text of an accepted message is non-empty
    (truthy), and for a plain-text request it is the body, which is
    non-empty after trimming. *)
Theorem accepted_text_nonempty env event message :
  validate_and_normalize env event = Returns (Some message, None) ->
  truthy (Api.normalized_text message) = true /\
  (Api.source message = "text_upload" ->
   exists b, Api.body event = Some b /\ Api.normalized_text message = JStr b /\
             strip b <> "").
Proof.
  unfold Api.validate_and_normalize. intros H.
  destruct (Api.body event) as [b|] eqn:Hb; cbn [from_option id] in H;
    [|discriminate].
  destruct (String.eqb b "" || String.eqb (strip b) "") eqn:Hblank; [discriminate|].
  apply orb_false_iff in Hblank as [Hne Hstrip].
  apply String.eqb_neq in Hne, Hstrip.
  repeat case_match; simplify_eq; cbn [Api.normalized_text Api.source truthy].
  - split; [apply negb_false_iff; assumption|discriminate].
  - split; [apply negb_false_iff; assumption|discriminate].
  - split; [|eauto]. apply negb_true_iff, String.eqb_neq. exact Hne.
Qed.

(** The part of C4 that holds: a JSON object without a truthy tenant_id,
    and a plain-text request without a non-empty X-Tenant-ID header, are
    answered with 400 and no message. *)
Lemma missing_tenant_is_bad_request env event (b : string) :
  Api.body event = Some b -> strip b <> "" ->
  let content_type :=
    default "" (Api.lower_keys (Api.headers event) !! "content-type") in
  (contains "application/json" content_type = true /\
   exists payload, json_loads b = inl (JObj payload) /\
                   truthy (dict_get payload "tenant_id") = false) \/
  (contains "application/json" content_type = false /\
   contains "text/plain" content_type = true /\
   default "" (Api.lower_keys (Api.headers event) !! "x-tenant-id") = "") ->
  exists error_response,
    validate_and_normalize env event = Returns (None, Some error_response) /\
    Api.statusCode error_response = 400%Z.
Proof.
  intros Hb Hnb content_type H. unfold Api.validate_and_normalize.
  rewrite Hb. cbn [from_option id]. rewrite (strip_nonblank b Hnb).
  fold content_type.
  destruct H as [[Hj (payload & Hl & Ht)]|(Hj & Hp & Hx)]; rewrite Hj.
  - rewrite Hl, Ht. cbn [negb]. eauto.
  - rewrite Hp.
    destruct (Api.lower_keys (Api.headers event) !! "x-tenant-id") as [t|];
      cbn [from_option id] in Hx; [subst t; simpl|]; eauto.
Qed.

End ApiClaims.

(** * The claims on the sample inputs *)

Section Scenarios.

Local Abbreviation worker_handler :=
  (Worker.lambda_handler json_loads_sample int_of_str_sample (Some "logs")
     isoformat_sample never_raises).
Local Abbreviation worker_store :=
  (Worker.store_processed_log (Some "logs") isoformat_sample never_raises).
Local Abbreviation worker_process :=
  (Worker.process_message (Some "logs") isoformat_sample never_raises).
Local Abbreviation api_validate :=
  (Api.validate_and_normalize json_loads_sample json_dumps_sample).
Local Abbreviation api_publish :=
  (Api.publish_to_sqs json_dumps_sample (Some "https://sqs.example/queue") never_raises).
Local Abbreviation api_handler :=
  (Api.lambda_handler json_loads_sample json_dumps_sample
     (Some "https://sqs.example/queue") never_raises).

Lemma batch_partial_failures_witness :
  batch_sample !! 1 = Some (sqs_record "m2" "not json") /\
  (worker_handler world0 None batch_sample).2 = ["m2"] /\
  length (Worker.writes (worker_handler world0 None batch_sample).1) = 0 + (3 - 1) /\
  size (Worker.items (worker_handler world0 None batch_sample).1) = 0 + (3 - 1).
Proof.
  split; [reflexivity|].
  destruct (proj2 (proj2 (proj2 (proj2 (proj2
              (batch_partial_failures json_loads_sample int_of_str_sample (Some "logs")
                 isoformat_sample never_raises None world0 batch_sample)))))
              1 (sqs_record "m2" "not json") eq_refl) as (Hr & Hw & Hs).
  - intros i wi ri Hi.
    destruct i as [|[|[|i]]]; vm_compute in Hi; try discriminate;
      injection Hi as <- <-; vm_compute; reflexivity.
  - split; [exact Hr|]. split; [exact Hw|]. apply Hs.
    + vm_compute. repeat constructor; simpl; intuition discriminate.
    + intros key Hin. reflexivity.
Defined.

Lemma store_last_writer_wins_witness :
  exists w1 w2,
    worker_store world0 (queued_dict "001" "first 555-0199") "first [REDACTED]" 1 "w"
    = (w1, true) /\
    worker_store w1 (queued_dict "001" "second") "second" 2 "w" = (w2, true) /\
    Worker.items w2 !! ("acme", "001")
    = Some (item_for (queued_dict "001" "second") "second" 2 "w"
              (isoformat_sample (Worker.clock w1))) /\
    size (Worker.items w2) = 1.
Proof.
  eexists _, _. split; [vm_compute; reflexivity|]. split; [vm_compute; reflexivity|].
  split.
  - apply (store_last_writer_wins (Some "logs") isoformat_sample never_raises
             world0 _ _ (queued_dict "001" "first 555-0199") (queued_dict "001" "second")
             "first [REDACTED]" "second" 1 2 "w" "w" "acme" "001");
      vm_compute; reflexivity.
  - vm_compute. reflexivity.
Defined.

Lemma persisted_record_keeps_original_witness :
  exists w' item,
    worker_process world0 (queued_value "001" "first 555-0199") "rh-m1" "w" 1
    = (w', Returns true) /\
    Worker.writes w' = [item] /\
    Worker.original_text item = JStr "first 555-0199" /\
    Worker.modified_data item = "first [REDACTED]".
Proof.
  destruct (persisted_record_keeps_original (Some "logs") isoformat_sample never_raises
              world0 _ (queued_value "001" "first 555-0199") "rh-m1" "w" 1 eq_refl)
    as (d & text & t & l & item & Hd & Ht & Hw & _ & _ & _ & Ho & Hm).
  injection Hd as <-. vm_compute in Ht. injection Ht as <-.
  eexists _, item. split; [reflexivity|]. split; [exact Hw|]. split; [exact Ho|].
  rewrite Hm. vm_compute. reflexivity.
Defined.

Lemma http_outcome_mapping_witness :
  exists message queue',
    api_validate env_sample text_event = Returns (Some message, None) /\
    api_publish [] message = (queue', true) /\
    api_handler env_sample [] text_event =
      (queue', Returns
         {| Api.statusCode := 202;
            Api.response_body :=
              json_dumps_sample [("status", JStr "accepted");
                                 ("log_id", Api.log_id message);
                                 ("request_id", JStr (Api.request_id message))];
            Api.response_headers := [("Content-Type", "application/json")] |}).
Proof.
  eexists _, _. split; [vm_compute; reflexivity|]. split; [vm_compute; reflexivity|].
  apply (proj1 (proj1 (http_outcome_mapping json_loads_sample json_dumps_sample
                  (Some "https://sqs.example/queue") never_raises
                  env_sample [] text_event) eq_refl eq_refl));
    vm_compute; reflexivity.
Defined.

Lemma plain_text_normalized_witness :
  exists message,
    api_validate env_sample text_event = Returns (Some message, None) /\
    Api.tenant_id message = JStr "acme" /\
    Api.source message = "text_upload" /\
    Api.normalized_text message = JStr "hello  world".
Proof.
  apply (plain_text_normalized json_loads_sample json_dumps_sample env_sample
           text_event "hello  world" "text/plain; charset=utf-8" "acme");
    try (vm_compute; reflexivity); vm_compute; discriminate.
Defined.

Lemma accepted_text_nonempty_witness :
  exists message,
    api_validate env_sample text_event = Returns (Some message, None) /\
    truthy (Api.normalized_text message) = true.
Proof.
  eexists. split; [vm_compute; reflexivity|].
  apply (accepted_text_nonempty json_loads_sample json_dumps_sample env_sample
           text_event).
  vm_compute. reflexivity.
Defined.

(** C6 as stated fails: a JSON text field of three spaces is accepted. *)
Lemma blank_json_text_accepted :
  api_validate env_sample (json_event body_blank_text)
  = Returns (Some {| Api.tenant_id := JStr "acme";
                     Api.log_id := JStr "uuid-a";
                     Api.normalized_text := JStr "   ";
                     Api.source := "json_upload";
                     Api.received_at := "2024-01-01T00:00:00Z";
                     Api.request_id := "uuid-b" |}, None)
  /\ strip "   " = "".
Proof. split; vm_compute; reflexivity. Qed.

(** C8 as stated fails: a plain-text request whose X-Tenant-ID header is
    present but empty is rejected. *)
Lemma empty_tenant_header_rejected :
  strip "hello" <> "" /\
  Api.lower_keys (Api.headers empty_tenant_event) !! "x-tenant-id" = Some "" /\
  api_validate env_sample empty_tenant_event
  = Returns (None, Some (Api.bad_request json_dumps_sample
               "X-Tenant-ID header is required for text/plain requests")) /\
  Api.statusCode (Api.bad_request json_dumps_sample
               "X-Tenant-ID header is required for text/plain requests") = 400%Z.
Proof.
  split; [vm_compute; discriminate|]. repeat split; vm_compute; reflexivity.
Qed.

(** C4 fails on the code: a JSON body that decodes to a value that is not
    an object has no tenant_id, yet the normalizer raises AttributeError
    instead of answering 400, and the handler lets it escape. *)
Theorem array_payload_raises :
  api_validate env_sample (json_event "[]") = Raises AttributeError /\
  forall queue, api_handler env_sample queue (json_event "[]")
                = (queue, Raises AttributeError).
Proof. split; [|intros queue]; vm_compute; reflexivity. Qed.

(** The scenario of the spec for C4: [{"text": "hello"}] is answered 400. *)
Example no_tenant_scenario :
  api_validate env_sample (json_event body_no_tenant)
  = Returns (None, Some (Api.bad_request json_dumps_sample
               "tenant_id is required in JSON payload")).
Proof. vm_compute. reflexivity. Qed.

End Scenarios.

(** * The repository's redaction tests (tests/test_core.py,
      tests/test_redaction_standalone.py) *)

Section RedactionTests.

Example test_redact_simple_format :
  redact_phone_numbers "User 555-0199 accessed system" = "User [REDACTED] accessed system".
Proof. vm_compute. reflexivity. Qed.

Example test_redact_full_format :
  redact_phone_numbers "Call 555-555-1234" = "Call [REDACTED]".
Proof. vm_compute. reflexivity. Qed.

Example test_redact_parentheses_format :
  redact_phone_numbers "Contact (555) 555-1234" = "Contact [REDACTED]".
Proof. vm_compute. reflexivity. Qed.

Example test_redact_multiple_phones :
  redact_phone_numbers "Multiple: 555-0199 and 555-0100"
  = "Multiple: [REDACTED] and [REDACTED]".
Proof. vm_compute. reflexivity. Qed.

Example test_preserve_non_phone_numbers :
  redact_phone_numbers "Order #12345 costs $99.99" = "Order #12345 costs $99.99".
Proof. vm_compute. reflexivity. Qed.

(** The replacement of the parenthesised form can expose a seven-digit
    match to the last expression of the same pass. *)
Example redact_exposed_tail :
  redact_phone_numbers "(555)55512341234567" = "[REDACTED][REDACTED]".
Proof. vm_compute. reflexivity. Qed.

End RedactionTests.

(** * Further properties of the redactor *)

Section SubstitutionCount.

Variable p : regex.
Hypothesis p_nonempty : forall prev s n, match_here p prev s = Some n -> 0 < n.
Hypothesis p_open : consumable p "["%char = false.

Local Abbreviation opens := (count_occ Ascii.ascii_dec).

Lemma consumed_has_no_bracket prev s n :
  match_here p prev s = Some n -> opens (take n s) "["%char = 0.
Proof.
  intros H. apply match_alphabet in H.
  apply count_occ_not_In. intros Hin.
  rewrite List.Forall_forall in H. apply H in Hin. congruence.
Qed.

(** Every replacement adds one opening bracket and removes none. *)
Lemma sub_adds_brackets prev s :
  opens s "["%char <= opens (sub_from p REDACTED prev 0 s) "["%char /\
  (has_match p prev s = true ->
   opens s "["%char < opens (sub_from p REDACTED prev 0 s) "["%char).
Proof.
  apply (sub_ind p p_nonempty (fun prev s R =>
    opens s "["%char <= opens R "["%char /\
    (has_match p prev s = true -> opens s "["%char < opens R "["%char))).
  - intros prev0. split; [reflexivity|]. simpl.
    destruct (match_here p prev0 []) eqn:E; [|discriminate].
    pose proof (p_nonempty _ _ _ E). apply match_bound in E. simpl in E. lia.
  - intros prev0 c t E [IH1 IH2]. cbn [has_match]. rewrite E.
    cbn [count_occ]. destruct (Ascii.ascii_dec c "["); split; intros; try lia.
    + specialize (IH2 H). lia.
    + specialize (IH2 H). lia.
  - intros prev0 t n E [IH1 _].
    assert (opens t "["%char = opens (drop n t) "["%char) as ->.
    { rewrite <- (take_drop n t) at 1.
      rewrite count_occ_app, (consumed_has_no_bracket _ _ _ E). reflexivity. }
    rewrite count_occ_app.
    change (opens REDACTED "["%char) with 1. split; intros; lia.
Qed.

End SubstitutionCount.

Section RedactorFurther.

Local Abbreviation opens := (count_occ Ascii.ascii_dec).

Lemma pass_adds_brackets r s :
  In r patterns ->
  opens s "["%char <= opens (re_sub r REDACTED s) "["%char /\
  (has_match r None s = true -> opens s "["%char < opens (re_sub r REDACTED s) "["%char).
Proof.
  intros Hr. apply sub_adds_brackets.
  - intros prev t n. apply match_nonempty, Hr.
  - pose proof (repl_not_consumed r Hr) as H. inversion H; assumption.
Qed.

Lemma redact_text_changes s :
  (exists r, In r patterns /\ has_match r None s = true) -> redact_text s <> s.
Proof.
  intros (r & Hr & Hm) Heq.
  assert (opens s "["%char < opens (redact_text s) "["%char) as Hlt;
    [|rewrite Heq in Hlt; lia].
  rewrite redact_text_unfold.
  assert (In pat_paren patterns) as H1 by (simpl; auto).
  assert (In pat_ten patterns) as H2 by (simpl; auto).
  assert (In pat_seven patterns) as H3 by (simpl; auto).
  destruct (pass_adds_brackets pat_paren s H1) as [A1 A2].
  destruct (pass_adds_brackets pat_ten (re_sub pat_paren REDACTED s) H2) as [B1 B2].
  destruct (pass_adds_brackets pat_seven
              (re_sub pat_ten REDACTED (re_sub pat_paren REDACTED s)) H3) as [C1 C2].
  destruct (has_match pat_paren None s) eqn:E1; [specialize (A2 eq_refl); lia|].
  rewrite (re_sub_no_match _ _ E1) in *.
  destruct (has_match pat_ten None s) eqn:E2; [specialize (B2 eq_refl); lia|].
  rewrite (re_sub_no_match _ _ E2) in *.
  destruct (has_match pat_seven None s) eqn:E3; [specialize (C2 eq_refl); lia|].
  destruct Hr as [<-|[<-|[<-|[]]]]; congruence.
Qed.

(** X1: after redaction none of the phone expressions matches anywhere in
    the output. *)
Theorem redact_leaves_no_match (s : string) :
  phone_like (redact_phone_numbers s) = false.
Proof.
  unfold phone_like, redact_phone_numbers.
  rewrite list_ascii_of_string_of_list_ascii.
  cbn [existsb patterns].
  rewrite !redact_text_clean by (simpl; auto). reflexivity.
Qed.

(** X2: a string in which a phone expression matches is changed by
    redaction (the converse of non-interference). *)
Theorem redact_changes_matching (s : string) :
  phone_like s = true -> redact_phone_numbers s <> s.
Proof.
  intros H Heq. unfold phone_like in H.
  apply existsb_exists in H.
  apply (redact_text_changes (list_ascii_of_string s) H).
  unfold redact_phone_numbers in Heq.
  rewrite <- Heq at 2. rewrite list_ascii_of_string_of_list_ascii. reflexivity.
Qed.

Lemma redact_changes_matching_witness :
  phone_like "call 555-0199" = true /\ redact_phone_numbers "call 555-0199" <> "call 555-0199".
Proof.
  split; [reflexivity|]. apply (redact_changes_matching "call 555-0199"). reflexivity.
Defined.

Lemma match_has_digit r prev s n :
  In r patterns -> match_here r prev s = Some n -> existsb is_digit s = true.
Proof.
  intros Hr H.
  assert (exists r1 tl, r = r1 ++ One CDigit :: tl) as (r1 & tl & ->).
  { destruct Hr as [<-|[<-|[<-|[]]]].
    - destruct paren_shape as [r1 E]. eauto.
    - destruct ten_shape as [r1 E]. eauto.
    - destruct seven_shape as [r1 E]. eauto. }
  apply match_split in H as (n1 & n2 & _ & _ & H).
  cbn [match_here accepts] in H.
  destruct (drop n1 s) as [|d rest] eqn:Ed; [discriminate|].
  destruct (is_digit d) eqn:Hd; [|discriminate].
  apply existsb_exists. exists d. split; [|exact Hd].
  rewrite <- (take_drop n1 s), Ed. apply in_or_app. right. left. reflexivity.
Qed.

Lemma no_digit_no_match r :
  In r patterns ->
  forall s prev, existsb is_digit s = false -> has_match r prev s = false.
Proof.
  intros Hr. induction s as [|c s IH]; intros prev H; cbn [has_match].
  - destruct (match_here r prev []) eqn:E; [|reflexivity].
    apply (match_has_digit r _ _ _ Hr) in E. congruence.
  - destruct (match_here r prev (c :: s)) eqn:E.
    + apply (match_has_digit r _ _ _ Hr) in E. congruence.
    + apply IH. simpl in H. apply orb_false_iff in H as [_ H]. exact H.
Qed.

(** X3: a string without any digit is returned unchanged. *)
Theorem redact_keeps_digitless (s : string) :
  existsb is_digit (list_ascii_of_string s) = false -> redact_phone_numbers s = s.
Proof.
  intros H. unfold redact_phone_numbers.
  rewrite redact_text_no_match; [apply string_of_list_ascii_of_string|].
  intros r Hr. apply no_digit_no_match; assumption.
Qed.

Lemma redact_keeps_digitless_witness :
  redact_phone_numbers "GET /api/login (ok) [REDACTED]" = "GET /api/login (ok) [REDACTED]".
Proof. apply (redact_keeps_digitless "GET /api/login (ok) [REDACTED]"). reflexivity. Defined.

End RedactorFurther.

(** * The formats named in the docstring of [redact_phone_numbers] *)

Section DocumentedFormats.

Lemma match_one k r prev x s :
  accepts k x = true ->
  match_here (One k :: r) prev (x :: s) = S <$> match_here r (Some x) s.
Proof. intros H. cbn [match_here]. rewrite H. reflexivity. Qed.

Lemma match_opt_take k r prev x s n :
  accepts k x = true -> match_here r (Some x) s = Some n ->
  match_here (Opt k :: r) prev (x :: s) = Some (S n).
Proof. intros H E. cbn [match_here]. rewrite H, E. reflexivity. Qed.

Lemma match_wordb r prev s :
  at_boundary prev (head s) = true ->
  match_here (WordB :: r) prev s = match_here r prev s.
Proof. intros H. cbn [match_here]. rewrite H. reflexivity. Qed.

Lemma match_mandatory r :
  forall prev s n, match_here r prev s = Some n -> mandatory r <= n.
Proof.
  unfold mandatory.
  induction r as [|[k|k|] r IH]; intros prev s n H; simpl in H |- *.
  - lia.
  - destruct s as [|x s']; [discriminate|].
    destruct (accepts k x); [|discriminate].
    destruct (match_here r (Some x) s') eqn:E; simpl in H; [|discriminate].
    injection H as <-. apply IH in E. lia.
  - destruct s as [|x s']; [eauto|].
    destruct (accepts k x); [|eauto].
    destruct (match_here r (Some x) s') eqn:E; simpl in H; [|eauto].
    injection H as <-. apply IH in E. lia.
  - destruct (at_boundary prev (head s)); [|discriminate]. eauto.
Qed.

Lemma too_short_no_match r :
  forall s prev, length s < mandatory r -> has_match r prev s = false.
Proof.
  induction s as [|c s IH]; intros prev Hl; cbn [has_match].
  - destruct (match_here r prev []) eqn:E; [|reflexivity].
    pose proof (match_mandatory _ _ _ _ E). apply match_bound in E. lia.
  - destruct (match_here r prev (c :: s)) eqn:E.
    + pose proof (match_mandatory _ _ _ _ E). apply match_bound in E. lia.
    + apply IH. simpl in Hl. lia.
Qed.

Lemma no_paren_no_match :
  forall s prev, existsb (Ascii.eqb "(") s = false -> has_match pat_paren prev s = false.
Proof.
  induction s as [|c s IH]; intros prev H; [reflexivity|].
  cbn [existsb] in H. apply orb_false_iff in H as [Hc Hs].
  cbn [has_match].
  replace (match_here pat_paren prev (c :: s)) with (@None nat);
    [apply IH, Hs|].
  unfold pat_paren. cbn [app match_here accepts]. rewrite Hc. reflexivity.
Qed.

Lemma digit_not_paren x : is_digit x = true -> Ascii.eqb "(" x = false.
Proof. destruct x as [[] [] [] [] [] [] [] []]; vm_compute; congruence. Qed.

Lemma separator_not_paren x : accepts dash_dot_space x = true -> Ascii.eqb "(" x = false.
Proof. destruct x as [[] [] [] [] [] [] [] []]; vm_compute; congruence. Qed.

Lemma dash_dot_is_separator x : accepts dash_dot x = true -> accepts dash_dot_space x = true.
Proof. destruct x as [[] [] [] [] [] [] [] []]; vm_compute; congruence. Qed.

(** A whole-string match is replaced by the token alone. *)
Lemma re_sub_whole r s :
  In r patterns -> match_here r None s = Some (length s) ->
  re_sub r REDACTED s = REDACTED.
Proof.
  intros Hr H. unfold re_sub.
  rewrite (sub_hit r (fun prev t n => match_nonempty r prev t n Hr) _ _ _ H).
  rewrite drop_all, sub_nil by (intros prev t n; apply match_nonempty, Hr).
  apply app_nil_r.
Qed.

Variables a b c d e f g h i j : ascii.
Hypothesis digits : forallb is_digit [a; b; c; d; e; f; g; h; i; j] = true.

Local Ltac digit_facts :=
  let H := fresh in
  pose proof digits as H; cbn [forallb] in H;
  repeat (apply andb_prop in H; let H1 := fresh "Hd" in destruct H as [H1 H]).

Local Ltac solve_accept :=
  first [ assumption
        | cbn [accepts]; assumption
        | apply Ascii.eqb_refl ].

Local Ltac solve_boundary :=
  unfold at_boundary; cbn [head is_word_opt];
  rewrite digit_is_word by assumption; reflexivity.

Lemma seven_matches_whole (s1 : ascii) :
  accepts dash_dot s1 = true ->
  match_here pat_seven None [d; e; f; s1; g; h; i; j] = Some 8.
Proof.
  intros Hs. digit_facts. unfold pat_seven, times. cbn [app repeat].
  rewrite match_wordb by solve_boundary.
  rewrite !match_one by solve_accept.
  erewrite match_opt_take; [reflexivity|exact Hs|].
  rewrite !match_one by solve_accept.
  rewrite match_wordb by solve_boundary. reflexivity.
Qed.

Lemma ten_matches_whole (t1 t2 : ascii) :
  accepts dash_dot_space t1 = true -> accepts dash_dot_space t2 = true ->
  match_here pat_ten None [a; b; c; t1; d; e; f; t2; g; h; i; j] = Some 12.
Proof.
  intros H1 H2. digit_facts. unfold pat_ten, times. cbn [app repeat].
  rewrite match_wordb by solve_boundary.
  rewrite !match_one by solve_accept.
  rewrite match_wordb by solve_boundary. reflexivity.
Qed.

Lemma paren_matches_whole (sp s1 : ascii) :
  is_space sp = true -> accepts dash_dot s1 = true ->
  match_here pat_paren None ["("%char; a; b; c; ")"%char; sp; d; e; f; s1; g; h; i; j]
  = Some 14.
Proof.
  intros Hsp Hs. digit_facts. unfold pat_paren, times. cbn [app repeat].
  rewrite !match_one by solve_accept.
  erewrite match_opt_take; [reflexivity|exact Hsp|].
  rewrite !match_one by solve_accept.
  erewrite match_opt_take; [reflexivity|exact Hs|].
  rewrite !match_one by solve_accept. reflexivity.
Qed.

(** X4: whatever the digits, a string that is exactly a number in one of
    the three documented formats (555-0199, 555-555-1234, (555) 555-1234,
    with any of the separators the expressions allow) is redacted to the
    token alone. *)
Theorem documented_formats_redacted (s1 t1 t2 sp : ascii) :
  accepts dash_dot s1 = true ->
  accepts dash_dot_space t1 = true -> accepts dash_dot_space t2 = true ->
  is_space sp = true ->
  redact_phone_numbers (string_of_list_ascii [d; e; f; s1; g; h; i; j])
  = "[REDACTED]" /\
  redact_phone_numbers (string_of_list_ascii [a; b; c; t1; d; e; f; t2; g; h; i; j])
  = "[REDACTED]" /\
  redact_phone_numbers
    (string_of_list_ascii ["("%char; a; b; c; ")"%char; sp; d; e; f; s1; g; h; i; j])
  = "[REDACTED]".
Proof.
  intros Hs1 Ht1 Ht2 Hsp.
  pose proof digits as Hd. cbn [forallb] in Hd.
  repeat (apply andb_prop in Hd; let H1 := fresh "Hd" in destruct Hd as [H1 Hd]).
  pose proof (dash_dot_is_separator _ Hs1) as Hs1'.
  unfold redact_phone_numbers.
  rewrite !list_ascii_of_string_of_list_ascii, !redact_text_unfold.
  split; [|split].
  - rewrite (re_sub_no_match pat_paren).
    2:{ apply no_paren_no_match. cbn [existsb].
        repeat first [ rewrite digit_not_paren by assumption
                     | rewrite separator_not_paren by assumption ].
        reflexivity. }
    rewrite (re_sub_no_match pat_ten).
    2:{ apply too_short_no_match. vm_compute. lia. }
    rewrite (re_sub_whole pat_seven); [reflexivity|simpl; auto|].
    apply seven_matches_whole, Hs1.
  - rewrite (re_sub_no_match pat_paren).
    2:{ apply no_paren_no_match. cbn [existsb].
        repeat first [ rewrite digit_not_paren by assumption
                     | rewrite separator_not_paren by assumption ].
        reflexivity. }
    rewrite (re_sub_whole pat_ten); [reflexivity|simpl; auto|].
    apply ten_matches_whole; assumption.
  - rewrite (re_sub_whole pat_paren); [reflexivity|simpl; auto|].
    apply paren_matches_whole; assumption.
Qed.

End DocumentedFormats.

Lemma documented_formats_redacted_witness :
  redact_phone_numbers "555.0199" = "[REDACTED]" /\
  redact_phone_numbers "415 555.0199" = "[REDACTED]" /\
  redact_phone_numbers "(415) 555.0199" = "[REDACTED]".
Proof.
  apply (documented_formats_redacted "4" "1" "5" "5" "5" "5" "0" "1" "9" "9" eq_refl
           "." " " "." " "); reflexivity.
Defined.

(** * Further properties of the worker *)

Section WorkerFurther.

Variable json_loads : string -> json + string.
Variable int_of_str : string -> option Z.
Variable table_name : option string.
Variable isoformat : nat -> string.
Variable put_item_raises : Worker.World -> Worker.Item -> bool.

Local Abbreviation store_processed_log :=
  (Worker.store_processed_log table_name isoformat put_item_raises).
Local Abbreviation process_message :=
  (Worker.process_message table_name isoformat put_item_raises).
Local Abbreviation handle_record :=
  (Worker.handle_record json_loads int_of_str table_name isoformat put_item_raises).
Local Abbreviation lambda_handler :=
  (Worker.lambda_handler json_loads int_of_str table_name isoformat put_item_raises).

Implicit Types (w : Worker.World) (r : Worker.SQSRecord) (d : gmap string json).

(** X5: a message without one of the six keys the item is built from is
    not stored: the call returns False and the table is as before. *)
Theorem store_needs_every_key w d modified_data (attempt : Z) (worker_id key : string) :
  In key ["tenant_id"; "log_id"; "source"; "normalized_text"; "received_at";
          "request_id"] ->
  d !! key = None ->
  exists w',
    store_processed_log w d modified_data attempt worker_id = (w', false) /\
    Worker.items w' = Worker.items w /\ Worker.writes w' = Worker.writes w.
Proof.
  intros Hk Hnone.
  destruct (store_processed_log w d modified_data attempt worker_id) as [w' [|]] eqn:E.
  - exfalso. unfold Worker.store_processed_log in E.
    destruct (Worker.get_dynamodb_table table_name); [|discriminate].
    destruct (d !! "tenant_id") eqn:E1; [|discriminate].
    destruct (d !! "log_id") eqn:E2; [|discriminate].
    destruct (d !! "source") eqn:E3; [|discriminate].
    destruct (d !! "normalized_text") eqn:E4; [|discriminate].
    destruct (d !! "received_at") eqn:E5; [|discriminate].
    destruct (d !! "request_id") eqn:E6; [|discriminate].
    destruct Hk as [<-|[<-|[<-|[<-|[<-|[<-|[]]]]]]]; congruence.
  - exists w'. split; [reflexivity|].
    eapply store_returns_false, E.
Qed.

(** X6: only a message that is a dict with a string under normalized_text
    reaches the store.  A dict with anything else there (absent, null, a
    number, a list) is answered False without touching the world, and a
    body that is not a dict makes [process_message] raise. *)
Theorem process_message_rejects w message_body (receipt_handle worker_id : string)
    (attempt : Z) :
  (forall d text, message_body = JObj d -> d !! "normalized_text" <> Some (JStr text)) ->
  process_message w message_body receipt_handle worker_id attempt
  = (w, match message_body with
        | JObj _ => Returns false
        | _ => Raises AttributeError
        end).
Proof.
  intros H. unfold Worker.process_message.
  destruct message_body as [| | | | | |d]; try reflexivity.
  unfold dict_get.
  destruct (d !! "normalized_text") as [[| | | |text| |]|] eqn:E; try reflexivity.
  exfalso. eapply H; [reflexivity|exact E].
Qed.

Lemma handle_record_other_tenant worker_id w r w' ok (T' L' : string) :
  handle_record worker_id w r = (w', ok) ->
  (forall d, json_loads (Worker.body r) = inl (JObj d) ->
             d !! "tenant_id" <> Some (JStr T')) ->
  Worker.items w' !! (T', L') = Worker.items w !! (T', L').
Proof.
  intros H Hother. destruct ok.
  - unfold Worker.handle_record in H.
    destruct (json_loads (Worker.body r)) as [message_body|] eqn:El; [|discriminate].
    destruct (match Worker.ApproximateReceiveCount r with
              | Some count => int_of_str count
              | None => Some 1%Z
              end) as [attempt|]; [|discriminate].
    destruct (Worker.process_message table_name isoformat put_item_raises w
                message_body (Worker.receiptHandle r) worker_id attempt)
      as [w1 [success|e]] eqn:Ep; [|discriminate].
    injection H as <- ->.
    apply process_message_true in Ep as (d & text & -> & _ & Es).
    apply store_returns_true in Es as (t & l & Ht & _ & _ & ->).
    cbn [Worker.items]. apply lookup_insert_ne.
    intros Heq. injection Heq as -> ->. eapply Hother; eauto.
  - apply handle_record_false in H as [-> _]. reflexivity.
Qed.

(** X7: tenant isolation.  A batch in which no record carries tenant T
    leaves every record stored under T exactly as it was. *)
Theorem batch_leaves_other_tenants (context : option string) (T' L' : string) :
  forall (Records : list Worker.SQSRecord) w,
    (forall r d, In r Records -> json_loads (Worker.body r) = inl (JObj d) ->
                 d !! "tenant_id" <> Some (JStr T')) ->
    Worker.items (lambda_handler w context Records).1 !! (T', L')
    = Worker.items w !! (T', L').
Proof.
  intros Records w H. rewrite lambda_handler_trace. cbn [fst]. unfold end_world.
  revert w. induction Records as [|r Records IH]; intros w; [reflexivity|].
  cbn [fold_left]. rewrite IH by (intros r0 d Hin; apply H; right; exact Hin).
  destruct (handle_record (default "local-worker" context) w r) as [w1 ok] eqn:E.
  cbn [fst]. eapply handle_record_other_tenant; [exact E|].
  intros d. apply H. left. reflexivity.
Qed.

(** X8: a batch is processed record by record: handling [rs1 ++ rs2] is
    handling [rs1], then [rs2] in the world that leaves, and the reports
    are concatenated. *)
Theorem batch_composes (context : option string) w (rs1 rs2 : list Worker.SQSRecord) :
  lambda_handler w context (rs1 ++ rs2)
  = let first := lambda_handler w context rs1 in
    let second := lambda_handler first.1 context rs2 in
    (second.1, first.2 ++ second.2).
Proof.
  cbv zeta. rewrite !lambda_handler_trace. cbn [fst snd].
  unfold end_world, failed_ids. rewrite fold_left_app. f_equal.
  rewrite <- List.map_app, <- List.filter_app. f_equal. f_equal.
  revert w. induction rs1 as [|r rs1 IH]; intros w; [reflexivity|].
  cbn [app batch_trace fold_left]. f_equal. apply IH.
Qed.

(** X9: the report names only records of the batch, each at most once per
    delivery and in delivery order. *)
Theorem failures_come_from_batch (context : option string) w
    (Records : list Worker.SQSRecord) :
  sublist (lambda_handler w context Records).2 (map Worker.messageId Records).
Proof.
  rewrite lambda_handler_trace. cbn [snd]. unfold failed_ids.
  revert w. induction Records as [|r Records IH]; intros w; [constructor|].
  cbn [batch_trace List.filter map]. cbn [fst snd].
  destruct (negb (handle_record (default "local-worker" context) w r).2).
  - cbn [map snd]. apply sublist_skip, IH.
  - apply sublist_cons, IH.
Qed.

(** X10: the worker never deletes: every key stored before a batch is
    stored after it, and the log of writes is only extended. *)
Theorem batch_never_deletes (context : option string) :
  forall (Records : list Worker.SQSRecord) w,
    (forall key, is_Some (Worker.items w !! key) ->
                 is_Some (Worker.items (lambda_handler w context Records).1 !! key)) /\
    (exists added,
       Worker.writes (lambda_handler w context Records).1 = added ++ Worker.writes w).
Proof.
  intros Records w. rewrite lambda_handler_trace. cbn [fst]. split.
  - unfold end_world. revert w.
    induction Records as [|r Records IH]; intros w key Hk; [exact Hk|].
    cbn [fold_left]. apply IH.
    destruct (handle_record (default "local-worker" context) w r) as [w1 [|]] eqn:E;
      cbn [fst].
    + unfold Worker.handle_record in E.
      destruct (json_loads (Worker.body r)) as [message_body|]; [|discriminate].
      destruct (match Worker.ApproximateReceiveCount r with
                | Some count => int_of_str count
                | None => Some 1%Z
                end) as [attempt|]; [|discriminate].
      destruct (Worker.process_message table_name isoformat put_item_raises w
                  message_body (Worker.receiptHandle r)
                  (default "local-worker" context) attempt)
        as [w2 [success|e]] eqn:Ep; [|discriminate].
      injection E as <- ->.
      apply process_message_true in Ep as (d & text & -> & _ & Es).
      apply store_returns_true in Es as (t & l & _ & _ & _ & ->).
      cbn [Worker.items]. rewrite lookup_insert. case_decide; [eauto|exact Hk].
    + apply handle_record_false in E as [-> _]. exact Hk.
  - apply writes_grow.
Qed.

(** X11: the item a record leaves behind names the worker (the function
    name of the context, or local-worker), carries the receive count as its
    attempt (1 when the attribute is absent) and the clock reading of the
    write. *)
Theorem record_item_provenance (context : option string) w r w' :
  lambda_handler w context [r] = (w', []) ->
  exists item,
    Worker.writes w' = item :: Worker.writes w /\
    Worker.worker_id item = default "local-worker" context /\
    Worker.processed_at item = (isoformat (Worker.clock w) ++ "Z")%string /\
    match Worker.ApproximateReceiveCount r with
    | None => Worker.attempt item = 1%Z
    | Some count => int_of_str count = Some (Worker.attempt item)
    end.
Proof.
  unfold Worker.lambda_handler. cbn [fold_left].
  destruct (handle_record (default "local-worker" context) w r) as [w1 [|]] eqn:E;
    [|intros H; injection H as _ H; discriminate].
  intros H. injection H as <-.
  unfold Worker.handle_record in E.
  destruct (json_loads (Worker.body r)) as [message_body|]; [|discriminate].
  destruct (Worker.ApproximateReceiveCount r) as [count|].
  - destruct (int_of_str count) as [attempt|] eqn:Ei; [|discriminate].
    destruct (Worker.process_message table_name isoformat put_item_raises w
                message_body (Worker.receiptHandle r)
                (default "local-worker" context) attempt)
      as [w2 [success|e]] eqn:Ep; [|discriminate].
    injection E as <- ->.
    apply process_message_true in Ep as (d & text & -> & _ & Es).
    apply store_returns_true in Es as (t & l & _ & _ & _ & ->).
    eexists. split; [reflexivity|]. cbn. auto.
  - destruct (Worker.process_message table_name isoformat put_item_raises w
                message_body (Worker.receiptHandle r)
                (default "local-worker" context) 1)
      as [w2 [success|e]] eqn:Ep; [|discriminate].
    injection E as <- ->.
    apply process_message_true in Ep as (d & text & -> & _ & Es).
    apply store_returns_true in Es as (t & l & _ & _ & _ & ->).
    eexists. split; [reflexivity|]. cbn. auto.
Qed.

End WorkerFurther.

(** * Further properties of the ingest API *)

Section ApiFurther.

Variable json_loads : string -> json + string.
Variable json_dumps : list (string * json) -> string.
Variable queue_url : option string.
Variable send_message_raises : list Api.SqsMessage -> Api.SqsMessage -> bool.

Local Abbreviation bad_request := (Api.bad_request json_dumps).
Local Abbreviation validate_and_normalize :=
  (Api.validate_and_normalize json_loads json_dumps).
Local Abbreviation publish_to_sqs :=
  (Api.publish_to_sqs json_dumps queue_url send_message_raises).
Local Abbreviation lambda_handler :=
  (Api.lambda_handler json_loads json_dumps queue_url send_message_raises).

Implicit Types (env : Api.Env) (event : Api.Event) (queue : list Api.SqsMessage).

(** X12: a request whose body is missing, empty or only whitespace is
    rejected as empty before the content type is looked at. *)
Theorem blank_body_rejected env event :
  strip (default "" (Api.body event)) = "" ->
  validate_and_normalize env event
  = Returns (None, Some (bad_request "Request body cannot be empty")).
Proof.
  intros H. unfold Api.validate_and_normalize.
  rewrite H. rewrite orb_true_r. reflexivity.
Qed.

(** X13: a non-blank body under a content type that names neither
    application/json nor text/plain (or under no content type) is rejected
    as unsupported. *)
Theorem unsupported_content_type_rejected env event (b : string) :
  Api.body event = Some b -> strip b <> "" ->
  let content_type :=
    default "" (Api.lower_keys (Api.headers event) !! "content-type") in
  contains "application/json" content_type = false ->
  contains "text/plain" content_type = false ->
  validate_and_normalize env event
  = Returns (None, Some (bad_request
      "Content-Type must be application/json or text/plain")).
Proof.
  intros Hb Hnb content_type Hj Ht. unfold Api.validate_and_normalize.
  rewrite Hb. cbn [from_option id]. rewrite (strip_nonblank b Hnb).
  fold content_type. rewrite Hj, Ht. reflexivity.
Qed.

(** X14: a JSON request whose body does not decode is rejected with the
    decoder's message. *)
Theorem invalid_json_rejected env event (b e : string) :
  Api.body event = Some b -> strip b <> "" ->
  contains "application/json"
    (default "" (Api.lower_keys (Api.headers event) !! "content-type")) = true ->
  json_loads b = inr e ->
  validate_and_normalize env event
  = Returns (None, Some (bad_request ("Invalid JSON: " ++ e))).
Proof.
  intros Hb Hnb Hj He. unfold Api.validate_and_normalize.
  rewrite Hb. cbn [from_option id]. rewrite (strip_nonblank b Hnb), Hj, He.
  reflexivity.
Qed.

(** X15: a JSON request whose body decodes to an object with a truthy
    tenant_id and a truthy text is accepted; the message carries those two
    values, source json_upload, the clock reading, and the payload's log_id
    or, without one, the first generated identifier. *)
Theorem json_request_normalized env event (b : string) payload :
  Api.body event = Some b -> strip b <> "" ->
  contains "application/json"
    (default "" (Api.lower_keys (Api.headers event) !! "content-type")) = true ->
  json_loads b = inl (JObj payload) ->
  truthy (dict_get payload "tenant_id") = true ->
  truthy (dict_get payload "text") = true ->
  exists message,
    validate_and_normalize env event = Returns (Some message, None) /\
    Api.tenant_id message = dict_get payload "tenant_id" /\
    Api.normalized_text message = dict_get payload "text" /\
    Api.source message = "json_upload" /\
    Api.received_at message = (Api.utcnow env ++ "Z")%string /\
    Api.log_id message
    = (if truthy (dict_get payload "log_id") then dict_get payload "log_id"
       else JStr (Api.uuid4 env 0)).
Proof.
  intros Hb Hnb Hj Hl Ht Hx. unfold Api.validate_and_normalize.
  rewrite Hb. cbn [from_option id]. rewrite (strip_nonblank b Hnb), Hj, Hl, Ht, Hx.
  cbn [negb].
  destruct (truthy (dict_get payload "log_id")); eexists; (split; [reflexivity|]); auto.
Qed.

(** X16: the request identifier of an accepted message is the X-Request-ID
    header when there is one; otherwise it is a generated identifier: the
    first one drawn when the request brought its own log identifier, the
    second one when the log identifier was generated too, which is then the
    first one drawn. *)
Theorem request_id_source env event message :
  validate_and_normalize env event = Returns (Some message, None) ->
  let drawn :=
    match supplied_log_id json_loads event with Some _ => 0 | None => 1 end in
  Api.log_id message
  = default (JStr (Api.uuid4 env 0)) (supplied_log_id json_loads event) /\
  Api.request_id message
  = default (Api.uuid4 env drawn)
      (Api.lower_keys (Api.headers event) !! "x-request-id").
Proof.
  unfold Api.validate_and_normalize, supplied_log_id. intros H.
  destruct (Api.lower_keys (Api.headers event) !! "x-request-id") as [rid|];
    repeat case_match; simplify_eq; cbn; auto; congruence.
Qed.

(** X17: header names are looked up without regard to case, and of two
    headers whose names differ only in case the later one wins. *)
Theorem lower_keys_last_wins (headers : list (string * string)) (name : string) :
  Api.lower_keys headers !! name
  = snd <$> List.find (fun kv => String.eqb (lower (fst kv)) name) (rev headers).
Proof.
  unfold Api.lower_keys.
  induction headers as [|[k v] headers IH] using rev_ind; [reflexivity|].
  rewrite fold_left_app, rev_app_distr. cbn [fold_left rev app List.find fst].
  rewrite lookup_insert. destruct (String.eqb_spec (lower k) name) as [->|Hne].
  - rewrite decide_True by reflexivity. reflexivity.
  - rewrite decide_False by exact Hne. exact IH.
Qed.

(** X18: a successful publish appends exactly one message: its body is the
    serialisation of the six fields and its two attributes are the tenant
    and log identifiers, which are strings. *)
Theorem publish_appends_message queue message queue' :
  publish_to_sqs queue message = (queue', true) ->
  exists tenant log,
    Api.tenant_id message = JStr tenant /\ Api.log_id message = JStr log /\
    queue' = queue ++
      [{| Api.MessageBody :=
            json_dumps [("tenant_id", Api.tenant_id message);
                        ("log_id", Api.log_id message);
                        ("normalized_text", Api.normalized_text message);
                        ("source", JStr (Api.source message));
                        ("received_at", JStr (Api.received_at message));
                        ("request_id", JStr (Api.request_id message))];
          Api.attr_tenant_id := tenant;
          Api.attr_log_id := log |}].
Proof.
  unfold Api.publish_to_sqs. intros H.
  repeat case_match; simplify_eq. eauto.
Qed.

(** X19: anything but POST /ingest is answered 404 without looking at the
    request and without publishing. *)
Theorem other_routes_not_found env queue event :
  Api.http_method event <> Some "POST" \/ default "" (Api.rawPath event) <> "/ingest" ->
  lambda_handler env queue event
  = (queue, Returns {| Api.statusCode := 404;
                       Api.response_body := json_dumps [("error", JStr "Not Found")];
                       Api.response_headers :=
                         [("Content-Type", "application/json")] |}).
Proof.
  intros H. unfold Api.lambda_handler.
  destruct H as [H|H].
  - rewrite bool_decide_eq_false_2 by exact H. reflexivity.
  - apply String.eqb_neq in H. rewrite H, orb_true_r. reflexivity.
Qed.

Lemma handler_cases env queue event queue' o :
  lambda_handler env queue event = (queue', o) ->
  (queue' = queue /\
   (o = Raises AttributeError \/ o = Raises TypeError \/
    exists response, o = Returns response /\
      (Api.statusCode response = 400 \/ Api.statusCode response = 404 \/
       Api.statusCode response = 500)%Z)) \/
  (exists response sent, o = Returns response /\ Api.statusCode response = 202%Z /\
                         queue' = queue ++ [sent]).
Proof.
  unfold Api.lambda_handler. intros H.
  destruct (negb (bool_decide (Api.http_method event = Some "POST"))
            || negb (String.eqb (default "" (Api.rawPath event)) "/ingest")).
  { injection H as <- <-. left. split; [reflexivity|]. right. right. eauto. }
  destruct (validate_and_normalize env event) as [[m [error_response|]]|e] eqn:Hv.
  - apply validation_error_is_400 in Hv as [Hv ->].
    injection H as <- <-. left. split; [reflexivity|]. right. right. eauto.
  - destruct m as [message|].
    + destruct (publish_to_sqs queue message) as [queue1 [|]] eqn:Hq; cbn in H;
        injection H as <- <-.
      * right. destruct (publish_true _ _ _ _ _ _ Hq) as [sent ->]. eauto.
      * left. split; [eapply publish_false, Hq|]. right. right. eauto.
    + injection H as <- <-. left. auto.
  - injection H as <- <-. left. split; [reflexivity|].
    unfold Api.validate_and_normalize in Hv.
    repeat case_match; simplify_eq; auto.
Qed.

(** X20: the handler answers with one of four status codes. *)
Theorem handler_status_codes env queue event queue' response :
  lambda_handler env queue event = (queue', Returns response) ->
  In (Api.statusCode response) [202; 400; 404; 500]%Z.
Proof.
  intros H. apply handler_cases in H as [[_ H]|(r & sent & H & Hs & _)].
  - destruct H as [H|[H|(r & H & Hs)]]; try discriminate.
    injection H as <-. simpl. intuition.
  - injection H as <-. simpl. auto.
Qed.

(** X21: the queue is changed only by a request that is answered 202; in
    every other outcome, an escaping exception included, it is as before. *)
Theorem queue_changes_only_on_accept env queue event queue' o :
  lambda_handler env queue event = (queue', o) ->
  (forall response, o = Returns response -> Api.statusCode response <> 202%Z) ->
  queue' = queue.
Proof.
  intros H Hno. apply handler_cases in H as [[H _]|(r & sent & H & Hs & _)].
  - exact H.
  - exfalso. eapply Hno; eauto.
Qed.

(** X26: a JSON request with a non-blank body that decodes to an object is
    accepted exactly when the object has a truthy tenant_id and a truthy
    text. *)
Theorem json_object_accepted_iff env event (b : string) payload :
  Api.body event = Some b -> strip b <> "" ->
  contains "application/json"
    (default "" (Api.lower_keys (Api.headers event) !! "content-type")) = true ->
  json_loads b = inl (JObj payload) ->
  (exists message, validate_and_normalize env event = Returns (Some message, None)) <->
  truthy (dict_get payload "tenant_id") = true /\ truthy (dict_get payload "text") = true.
Proof.
  intros Hb Hnb Hj Hl. unfold Api.validate_and_normalize.
  rewrite Hb. cbn [from_option id]. rewrite (strip_nonblank b Hnb), Hj, Hl.
  destruct (truthy (dict_get payload "tenant_id"));
    destruct (truthy (dict_get payload "text")); cbn [negb]; split;
    try (intros [message H]; discriminate);
    try (intros [H1 H2]; discriminate).
  - auto.
  - intros _. destruct (truthy (dict_get payload "log_id")); eauto.
Qed.

(** X27: a plain-text request with a non-blank body is accepted exactly
    when it has a non-empty X-Tenant-ID header. *)
Theorem plain_text_accepted_iff env event (b : string) :
  Api.body event = Some b -> strip b <> "" ->
  let content_type :=
    default "" (Api.lower_keys (Api.headers event) !! "content-type") in
  contains "application/json" content_type = false ->
  contains "text/plain" content_type = true ->
  (exists message, validate_and_normalize env event = Returns (Some message, None)) <->
  (exists tenant, Api.lower_keys (Api.headers event) !! "x-tenant-id" = Some tenant /\
                  tenant <> "").
Proof.
  intros Hb Hnb content_type Hj Ht. unfold Api.validate_and_normalize.
  rewrite Hb. cbn [from_option id]. rewrite (strip_nonblank b Hnb).
  fold content_type. rewrite Hj, Ht.
  destruct (Api.lower_keys (Api.headers event) !! "x-tenant-id") as [tenant|].
  - destruct (String.eqb_spec tenant "") as [->|Hne]; split.
    + intros [message H]. discriminate.
    + intros (t & H & Hne). injection H as <-. contradiction.
    + intros _. eauto.
    + intros _. cbn [truthy]. eauto.
  - split; [intros [message H]; discriminate|intros (t & H & _); discriminate].
Qed.

End ApiFurther.

(** * From the API to the worker *)

Section Pipeline.

Variable json_loads : string -> json + string.
Variable json_dumps : list (string * json) -> string.
Variable int_of_str : string -> option Z.
Variable table_name : option string.
Variable isoformat : nat -> string.
Variable put_item_raises : Worker.World -> Worker.Item -> bool.
Variable queue_url : option string.
Variable send_message_raises : list Api.SqsMessage -> Api.SqsMessage -> bool.

(** X22: the message the API enqueues has every key the worker reads.  When
    the queue body decodes back to the dict that was serialised, the table
    is configured and the write is not refused, the worker stores the
    record under the message's tenant and log identifiers, with the
    original text, its redaction and the source. *)
Theorem enqueued_message_is_stored
    queue message queue' (text message_id receipt name worker_id : string) w :
  Api.publish_to_sqs json_dumps queue_url send_message_raises queue message
  = (queue', true) ->
  Api.normalized_text message = JStr text ->
  (let fields := [("tenant_id", Api.tenant_id message);
                  ("log_id", Api.log_id message);
                  ("normalized_text", Api.normalized_text message);
                  ("source", JStr (Api.source message));
                  ("received_at", JStr (Api.received_at message));
                  ("request_id", JStr (Api.request_id message))] in
   json_loads (json_dumps fields) = inl (JObj (list_to_map fields))) ->
  table_name = Some name -> name <> "" ->
  (forall w0 item, put_item_raises w0 item = false) ->
  exists sent item w',
    queue' = queue ++ [sent] /\
    Worker.handle_record json_loads int_of_str table_name isoformat put_item_raises
      worker_id w
      {| Worker.messageId := message_id; Worker.receiptHandle := receipt;
         Worker.body := Api.MessageBody sent;
         Worker.ApproximateReceiveCount := None |} = (w', true) /\
    Worker.items w' !! (Api.attr_tenant_id sent, Api.attr_log_id sent) = Some item /\
    Worker.original_text item = JStr text /\
    Worker.modified_data item = redact_phone_numbers text /\
    Worker.source item = JStr (Api.source message).
Proof.
  intros Hp Htext Hrt Htable Hname Hput. cbv zeta in Hrt.
  apply String.eqb_neq in Hname.
  unfold Api.publish_to_sqs in Hp.
  destruct queue_url as [url|]; [|discriminate].
  destruct (String.eqb url ""); [discriminate|].
  destruct (Api.tenant_id message) as [| | | |tenant| |] eqn:Et; try discriminate.
  destruct (Api.log_id message) as [| | | |log| |] eqn:El; try discriminate.
  match type of Hp with context [send_message_raises queue ?m] =>
    destruct (send_message_raises queue m); [discriminate|] end.
  injection Hp as <-.
  eexists _, _, _. split; [reflexivity|].
  unfold Worker.handle_record. cbn [Worker.body Api.MessageBody
    Worker.ApproximateReceiveCount Worker.receiptHandle].
  rewrite Hrt, Htext.
  rewrite !list_to_map_cons, list_to_map_nil.
  unfold Worker.process_message, dict_get.
  rewrite !lookup_insert_ne, lookup_insert_eq by discriminate.
  cbn [from_option id Worker.simulate_heavy_processing Worker.redact_value].
  unfold Worker.store_processed_log, Worker.get_dynamodb_table.
  rewrite Htable, Hname.
  repeat first [ rewrite lookup_insert_eq | rewrite lookup_insert_ne by discriminate ].
  unfold Worker.put_item. cbn [Worker.tenant_id Worker.log_id].
  rewrite Hput.
  split; [reflexivity|]. cbn [Worker.items Api.attr_tenant_id Api.attr_log_id].
  split; [apply lookup_insert_eq|]. auto.
Qed.

End Pipeline.

(** * The module globals *)

Section GlobalsFacts.

Lemma queue_url_stays (environ : option string) (url : string) n :
  Globals.after_calls (Globals.get_queue_url environ) n (Some url) = Some url.
Proof. induction n as [|n IH]; [reflexivity|]. exact IH. Qed.

Lemma table_name_stays (environ : option string) (name : string) table n :
  Globals.after_calls (Globals.get_dynamodb_table environ) n (Some name, table)
  = (Some name, table).
Proof. induction n as [|n IH]; [reflexivity|]. exact IH. Qed.

(** X23: what the n-th call of [get_queue_url] in a process gives.  Without
    the variable every call raises; with a URL every call returns it; with
    an empty value the first call raises and every later one returns the
    empty string. *)
Theorem queue_url_nth_call (environ : option string) (n : nat) :
  snd (Globals.get_queue_url environ
         (Globals.after_calls (Globals.get_queue_url environ) n None))
  = match environ with
    | None => Raises ValueError
    | Some url =>
        if String.eqb url "" then
          match n with 0 => Raises ValueError | S _ => Returns url end
        else Returns url
    end.
Proof.
  destruct environ as [url|].
  - destruct n as [|n].
    + simpl. destruct (String.eqb url ""); reflexivity.
    + cbn [Globals.after_calls].
      assert ((Globals.get_queue_url (Some url) None).1 = Some url) as ->
        by (simpl; destruct (String.eqb url ""); reflexivity).
      rewrite queue_url_stays. simpl. destruct (String.eqb url ""); reflexivity.
  - induction n as [|n IH]; [reflexivity|]. exact IH.
Qed.

(** X24: the same for [get_dynamodb_table]: with an empty table name the
    first call raises and every later call returns no table at all. *)
Theorem table_nth_call (environ : option string) (n : nat) :
  snd (Globals.get_dynamodb_table environ
         (Globals.after_calls (Globals.get_dynamodb_table environ) n (None, None)))
  = match environ with
    | None => Raises ValueError
    | Some name =>
        if String.eqb name "" then
          match n with 0 => Raises ValueError | S _ => Returns None end
        else Returns (Some name)
    end.
Proof.
  destruct environ as [name|].
  - destruct n as [|n].
    + simpl. destruct (String.eqb name ""); reflexivity.
    + cbn [Globals.after_calls]. simpl (Globals.get_dynamodb_table _ (None, None)).
      destruct (String.eqb name ""); cbn [fst];
        rewrite table_name_stays; reflexivity.
  - induction n as [|n IH]; [reflexivity|]. exact IH.
Qed.

(** X25: once a call has returned a URL, every later call returns the same
    one, whatever the environment has become. *)
Theorem queue_url_cached (environ environ' g g' : option string) (url : string) :
  Globals.get_queue_url environ g = (g', Returns url) ->
  Globals.get_queue_url environ' g' = (g', Returns url).
Proof.
  unfold Globals.get_queue_url. intros H.
  repeat case_match; simplify_eq; reflexivity.
Qed.

End GlobalsFacts.

(** * The further properties on the sample inputs *)

Section FurtherScenarios.

Local Abbreviation worker_handler :=
  (Worker.lambda_handler json_loads_sample int_of_str_sample (Some "logs")
     isoformat_sample never_raises).
Local Abbreviation worker_store :=
  (Worker.store_processed_log (Some "logs") isoformat_sample never_raises).
Local Abbreviation worker_process :=
  (Worker.process_message (Some "logs") isoformat_sample never_raises).
Local Abbreviation api_validate :=
  (Api.validate_and_normalize json_loads_sample json_dumps_sample).
Local Abbreviation api_publish :=
  (Api.publish_to_sqs json_dumps_sample (Some "https://sqs.example/queue") never_raises).
Local Abbreviation api_handler :=
  (Api.lambda_handler json_loads_sample json_dumps_sample
     (Some "https://sqs.example/queue") never_raises).

Lemma store_needs_every_key_witness :
  exists w',
    worker_store world0 (delete "source" (queued_dict "001" "second")) "second" 1 "w"
    = (w', false) /\
    Worker.items w' = Worker.items world0 /\ Worker.writes w' = Worker.writes world0.
Proof.
  apply (store_needs_every_key (Some "logs") isoformat_sample never_raises world0
           (delete "source" (queued_dict "001" "second")) "second" 1 "w" "source").
  - simpl. auto.
  - vm_compute. reflexivity.
Defined.

Lemma process_message_rejects_witness :
  worker_process world0 (JObj {[ "normalized_text" := JInt 5 ]}) "rh" "w" 1
  = (world0, Returns false).
Proof.
  apply (process_message_rejects (Some "logs") isoformat_sample never_raises world0
           (JObj {[ "normalized_text" := JInt 5 ]}) "rh" "w" 1).
  intros d text Hd Hl. injection Hd as <-. vm_compute in Hl. discriminate.
Defined.

Lemma batch_leaves_other_tenants_witness :
  Worker.items (worker_handler world0 None batch_sample).1 !! ("beta_inc", "001")
  = Worker.items world0 !! ("beta_inc", "001").
Proof.
  apply (batch_leaves_other_tenants json_loads_sample int_of_str_sample (Some "logs")
           isoformat_sample never_raises None "beta_inc" "001" batch_sample world0).
  intros r d Hin Hl Ht.
  destruct Hin as [<-|[<-|[<-|[]]]]; vm_compute in Hl; try discriminate;
    injection Hl as <-; vm_compute in Ht; discriminate.
Defined.

Lemma batch_never_deletes_witness :
  is_Some (Worker.items
             (worker_handler
                (worker_handler world0 None
                   [sqs_record "m1" (queued_body "001" "first 555-0199")]).1
                None [sqs_record "m3" (queued_body "002" "second")]).1
           !! ("acme", "001")).
Proof.
  apply (proj1 (batch_never_deletes json_loads_sample int_of_str_sample (Some "logs")
                  isoformat_sample never_raises None
                  [sqs_record "m3" (queued_body "002" "second")]
                  (worker_handler world0 None
                     [sqs_record "m1" (queued_body "001" "first 555-0199")]).1)).
  vm_compute. eauto.
Defined.

Lemma record_item_provenance_witness :
  exists w' item,
    worker_handler world0 (Some "redaction-worker")
      [sqs_record "m1" (queued_body "001" "first 555-0199")] = (w', []) /\
    Worker.writes w' = [item] /\
    Worker.worker_id item = "redaction-worker" /\
    int_of_str_sample "1" = Some (Worker.attempt item).
Proof.
  destruct (record_item_provenance json_loads_sample int_of_str_sample (Some "logs")
              isoformat_sample never_raises (Some "redaction-worker") world0
              (sqs_record "m1" (queued_body "001" "first 555-0199")) _ eq_refl)
    as (item & Hw & Hid & _ & Ha).
  eexists _, item. split; [reflexivity|]. auto.
Defined.

Lemma blank_body_rejected_witness :
  api_validate env_sample (json_event "   ")
  = Returns (None, Some (Api.bad_request json_dumps_sample "Request body cannot be empty")).
Proof.
  apply (blank_body_rejected json_loads_sample json_dumps_sample env_sample
           (json_event "   ")).
  vm_compute. reflexivity.
Defined.

Lemma unsupported_content_type_rejected_witness :
  api_validate env_sample (post [("Content-Type", "application/xml")] "<log/>")
  = Returns (None, Some (Api.bad_request json_dumps_sample
               "Content-Type must be application/json or text/plain")).
Proof.
  apply (unsupported_content_type_rejected json_loads_sample json_dumps_sample
           env_sample (post [("Content-Type", "application/xml")] "<log/>") "<log/>");
    try (vm_compute; reflexivity); vm_compute; discriminate.
Defined.

Lemma invalid_json_rejected_witness :
  api_validate env_sample (json_event "not json")
  = Returns (None, Some (Api.bad_request json_dumps_sample
               "Invalid JSON: Expecting value: line 1 column 1 (char 0)")).
Proof.
  apply (invalid_json_rejected json_loads_sample json_dumps_sample env_sample
           (json_event "not json") "not json"
           "Expecting value: line 1 column 1 (char 0)");
    try (vm_compute; reflexivity); vm_compute; discriminate.
Defined.

Lemma json_request_normalized_witness :
  exists message,
    api_validate env_sample (json_event body_full) = Returns (Some message, None) /\
    Api.tenant_id message = JStr "acme" /\
    Api.normalized_text message = JStr "User 555-0199 accessed /api/login" /\
    Api.log_id message = JStr "001".
Proof.
  destruct (json_request_normalized json_loads_sample json_dumps_sample env_sample
              (json_event body_full) body_full
              (list_to_map [("tenant_id", JStr "acme"); ("log_id", JStr "001");
                            ("text", JStr "User 555-0199 accessed /api/login")]))
    as (message & Hv & Ht & Hn & _ & _ & Hl);
    try (vm_compute; reflexivity); [vm_compute; discriminate|].
  exists message. split; [exact Hv|]. split; [exact Ht|]. split; [exact Hn|exact Hl].
Defined.

Lemma request_id_source_witness :
  Api.log_id message_sample = JStr "uuid-a" /\
  Api.request_id message_sample = "uuid-b".
Proof.
  apply (request_id_source json_loads_sample json_dumps_sample env_sample text_event
           message_sample).
  vm_compute. reflexivity.
Defined.

Lemma publish_appends_message_witness :
  exists tenant log sent,
    Api.tenant_id message_sample = JStr tenant /\ Api.log_id message_sample = JStr log /\
    Api.attr_tenant_id sent = tenant /\ Api.attr_log_id sent = log /\
    (api_publish [] message_sample).1 = [sent].
Proof.
  destruct (publish_appends_message json_dumps_sample (Some "https://sqs.example/queue")
              never_raises [] message_sample _ eq_refl)
    as (tenant & log & Ht & Hl & Hq).
  exists tenant, log. eexists. split; [exact Ht|]. split; [exact Hl|].
  split; [|split; [|exact Hq]]; reflexivity.
Defined.

Lemma other_routes_not_found_witness :
  (api_handler env_sample []
     {| Api.headers := []; Api.body := Some "hello";
        Api.rawPath := Some "/ingest"; Api.http_method := Some "GET" |}).1 = [].
Proof.
  rewrite (other_routes_not_found json_loads_sample json_dumps_sample
             (Some "https://sqs.example/queue") never_raises env_sample []
             {| Api.headers := []; Api.body := Some "hello";
                Api.rawPath := Some "/ingest"; Api.http_method := Some "GET" |});
    [reflexivity|].
  left. discriminate.
Defined.

Lemma handler_status_codes_witness :
  exists queue' response,
    api_handler env_sample [] empty_tenant_event = (queue', Returns response) /\
    In (Api.statusCode response) [202; 400; 404; 500]%Z.
Proof.
  eexists _, _. split; [vm_compute; reflexivity|].
  apply (handler_status_codes json_loads_sample json_dumps_sample
           (Some "https://sqs.example/queue") never_raises env_sample []
           empty_tenant_event []).
  vm_compute. reflexivity.
Defined.

Lemma queue_changes_only_on_accept_witness :
  (api_handler env_sample [] (json_event "[]")).1 = [].
Proof.
  apply (queue_changes_only_on_accept json_loads_sample json_dumps_sample
           (Some "https://sqs.example/queue") never_raises env_sample []
           (json_event "[]") _ (Raises AttributeError)).
  - vm_compute. reflexivity.
  - intros response H. discriminate.
Defined.

Lemma json_object_accepted_iff_witness :
  ~ exists message,
      api_validate env_sample (json_event body_no_tenant) = Returns (Some message, None).
Proof.
  intros H.
  apply (json_object_accepted_iff json_loads_sample json_dumps_sample env_sample
           (json_event body_no_tenant) body_no_tenant {[ "text" := JStr "hello" ]})
    in H as [H _];
    try (vm_compute; reflexivity); [|vm_compute; discriminate].
  vm_compute in H. discriminate.
Defined.

Lemma plain_text_accepted_iff_witness :
  exists message, api_validate env_sample text_event = Returns (Some message, None).
Proof.
  apply (plain_text_accepted_iff json_loads_sample json_dumps_sample env_sample
           text_event "hello  world");
    try (vm_compute; reflexivity); try (vm_compute; discriminate).
  exists "acme". split; [vm_compute; reflexivity|discriminate].
Defined.

Lemma enqueued_message_is_stored_witness :
  exists sent item w',
    (api_publish [] message_sample).1 = [sent] /\
    Worker.handle_record json_loads_queue int_of_str_sample (Some "logs")
      isoformat_sample never_raises "w" world0
      {| Worker.messageId := "m1"; Worker.receiptHandle := "rh-m1";
         Worker.body := Api.MessageBody sent;
         Worker.ApproximateReceiveCount := None |} = (w', true) /\
    Worker.items w' !! ("acme", "uuid-a") = Some item /\
    Worker.original_text item = JStr "hello  world".
Proof.
  destruct (enqueued_message_is_stored json_loads_queue json_dumps_sample
              int_of_str_sample (Some "logs") isoformat_sample never_raises
              (Some "https://sqs.example/queue") never_raises
              [] message_sample _ "hello  world" "m1" "rh-m1" "logs" "w" world0
              eq_refl eq_refl)
    as (sent & item & w' & Hq & Hh & Hi & Ho & _);
    try reflexivity; [discriminate|].
  exists sent, item, w'. split; [exact Hq|]. split; [exact Hh|].
  split; [|exact Ho].
  assert (Hs := Hq). vm_compute in Hs. injection Hs as <-. exact Hi.
Defined.

Lemma queue_url_cached_witness :
  Globals.get_queue_url None (Some "https://sqs.example/queue")
  = (Some "https://sqs.example/queue", Returns "https://sqs.example/queue").
Proof.
  apply (queue_url_cached (Some "https://sqs.example/queue") None None
           (Some "https://sqs.example/queue") "https://sqs.example/queue").
  reflexivity.
Defined.

End FurtherScenarios.
